(** * Retail sales analytics pipeline: cleaning and aggregation

    A shallow embedding of [extract_clean.py], [load_database.py] and the
    runner [main.py].

    Numeric cells ([sales], [profit], [discount], aggregates) are pandas /
    SQLite floats in the source.  They are embedded as exact rationals [Q]:
    comparisons against bin edges and against zero are exact on floats as
    well, and the rounding functions are written out below.  Column names
    come from a Latin-1 decoded header, so a character is one code point in
    0..255, which is exactly [ascii]. *)

From Stdlib Require Import List String Ascii Bool Arith ZArith QArith Qround Qabs.
From Stdlib Require Import DecimalString Lia Lqa Permutation Sorted.
Import ListNotations.

Local Open Scope Q_scope.

(** ** Rounding *)

Module Rounding.

(** [numpy.rint]: nearest integer, ties to the even neighbour. *)
Definition rint (q : Q) : Z :=
  let f := Qfloor q in
  match Qcompare (q - inject_Z f) (1 # 2) with
  | Lt => f
  | Gt => (f + 1)%Z
  | Eq => if Z.even f then f else (f + 1)%Z
  end.

(** [Series.round(2)]: scale by 100, [rint], scale back. *)
Definition np_round2 (q : Q) : Q := inject_Z (rint (q * 100)) / 100.

(** SQLite [ROUND(x, n)]: nearest, ties away from zero. *)
Definition round_half_away (q : Q) : Z :=
  if Qle_bool 0 q then Qfloor (q + (1 # 2))
  else (- Qfloor (- q + (1 # 2)))%Z.

Definition pow10 (n : nat) : Q := inject_Z (10 ^ Z.of_nat n).

Definition sql_round (q : Q) (n : nat) : Q :=
  inject_Z (round_half_away (q * pow10 n)) / pow10 n.

End Rounding.
Export Rounding.

(** ** [pandas.cut] with right-closed bins *)

Module Cut.

(** [bins.searchsorted(x, side="left")] on a sorted array: the number of
    leading edges strictly below [x]. *)
Fixpoint searchsorted_left (bins : list Q) (x : Q) : nat :=
  match bins with
  | [] => 0
  | b :: bs => if Qle_bool x b then 0%nat else S (searchsorted_left bs x)
  end.

(** The categorical code of [x]: [ids - 1], or missing when [ids] is [0]
    or [len(bins)] ([include_lowest] is off in the caller). *)
Definition cut_codes (bins : list Q) (x : Q) : option nat :=
  let ids := searchsorted_left bins x in
  if (ids =? 0)%nat || (ids =? List.length bins)%nat then None
  else Some (ids - 1)%nat.

Definition cut (bins : list Q) (labels : list string) (x : Q)
  : option string :=
  match cut_codes bins x with
  | Some c => nth_error labels c
  | None => None
  end.

End Cut.
Export Cut.

(** ** Discount buckets of [clean_data] *)

Definition discount_bins : list Q :=
  [- (1 # 100); 0; 1 # 10; 2 # 10; 3 # 10; 1].

Definition discount_labels : list string :=
  ["No Discount"; "1-10%"; "11-20%"; "21-30%"; "30%+"]%string.

Definition discount_code (d : Q) : option nat := cut_codes discount_bins d.

(** [pd.cut(df['discount'], bins=..., labels=...)] on one cell. *)
Definition cut_discount (d : Q) : option string :=
  cut discount_bins discount_labels d.

(** Lower and upper edge of the bin with code [i]. *)
Definition bin_lo (i : nat) : Q := nth i discount_bins 0.
Definition bin_hi (i : nat) : Q := nth (S i) discount_bins 0.

Definition in_bin (i : nat) (d : Q) : Prop := bin_lo i < d /\ d <= bin_hi i.

Ltac split_edges d :=
  unfold discount_code, cut_codes, discount_bins, searchsorted_left;
  repeat match goal with
  | |- context [Qle_bool d ?b] =>
      let E := fresh "E" in
      destruct (Qle_bool d b) eqn:E;
      [ apply Qle_bool_iff in E
      | apply not_true_iff_false in E; rewrite Qle_bool_iff in E;
        apply Qnot_le_lt in E ]
  end; cbn.

Lemma discount_code_in_bin (d : Q) (i : nat) :
  discount_code d = Some i -> (i < 5)%nat /\ in_bin i d.
Proof.
  split_edges d; intros H; inversion H; subst;
    unfold in_bin, bin_lo, bin_hi; cbn; (split; [lia | split; lra]).
Qed.

Lemma in_bin_discount_code (d : Q) (i : nat) :
  (i < 5)%nat -> in_bin i d -> discount_code d = Some i.
Proof.
  intros Hi [Hlo Hhi].
  do 5 (destruct i as [|i]; [revert Hlo Hhi; unfold bin_lo, bin_hi; cbn;
        intros; split_edges d; try reflexivity; exfalso; lra|]).
  lia.
Qed.

Lemma discount_code_none (d : Q) :
  discount_code d = None <-> d <= - (1 # 100) \/ 1 < d.
Proof.
  split.
  - split_edges d; intros H; try discriminate; lra.
  - intros H; split_edges d; try reflexivity; exfalso; lra.
Qed.

Lemma cut_discount_code (d : Q) :
  cut_discount d =
  match discount_code d with
  | Some c => nth_error discount_labels c
  | None => None
  end.
Proof. reflexivity. Qed.

(** ** Column-name normalisation

    [df.columns.str.strip().str.replace(' ', '_').str.replace('-', '_')
    .str.lower()] on names decoded as Latin-1. *)

Module ColumnNames.

(** [str.isspace] on the code points below 256. *)
Definition is_space (c : ascii) : bool :=
  let n := nat_of_ascii c in
  ((9 <=? n) && (n <=? 13) || (28 <=? n) && (n <=? 32)
   || (n =? 133) || (n =? 160))%nat.

(** [str.lower] on the code points below 256: A-Z and the accented
    capitals 0xC0-0xDE without the multiplication sign 0xD7. *)
Definition lower_char (c : ascii) : ascii :=
  let n := nat_of_ascii c in
  if ((65 <=? n) && (n <=? 90)
      || (192 <=? n) && (n <=? 222) && negb (n =? 215))%nat
  then ascii_of_nat (n + 32) else c.

Definition replace_char (old new c : ascii) : ascii :=
  if Ascii.eqb c old then new else c.

Fixpoint lstrip (l : list ascii) : list ascii :=
  match l with
  | [] => []
  | c :: l' => if is_space c then lstrip l' else l
  end.

Definition rstrip (l : list ascii) : list ascii := rev (lstrip (rev l)).

Definition strip (l : list ascii) : list ascii := rstrip (lstrip l).

Definition replace (old new : ascii) (l : list ascii) : list ascii :=
  map (replace_char old new) l.

Definition lower (l : list ascii) : list ascii := map lower_char l.

Definition normalize_chars (l : list ascii) : list ascii :=
  lower (replace "-" "_" (replace " " "_" (strip l))).

Definition normalize_name (s : string) : string :=
  string_of_list_ascii (normalize_chars (list_ascii_of_string s)).

Definition normalize_columns (cols : list string) : list string :=
  map normalize_name cols.

(** The three per-character steps fused. *)
Definition norm_char (c : ascii) : ascii :=
  lower_char (replace_char "-" "_" (replace_char " " "_" c)).

Definition head_ok (l : list ascii) : Prop :=
  match l with
  | [] => True
  | c :: _ => is_space c = false
  end.

Ltac all_chars c :=
  destruct c as [[] [] [] [] [] [] [] []]; vm_compute;
  try reflexivity; try discriminate.

Lemma norm_char_idem (c : ascii) : norm_char (norm_char c) = norm_char c.
Proof. all_chars c. Qed.

Lemma norm_char_not_space (c : ascii) :
  is_space c = false -> is_space (norm_char c) = false.
Proof. all_chars c. Qed.

Lemma normalize_chars_fused (l : list ascii) :
  normalize_chars l = map norm_char (strip l).
Proof.
  unfold normalize_chars, lower, replace. now rewrite !map_map.
Qed.

Lemma lstrip_head_ok (l : list ascii) : head_ok (lstrip l).
Proof.
  induction l as [|c l IH]; cbn; [exact I|].
  destruct (is_space c) eqn:E; [exact IH | exact E].
Qed.

Lemma head_ok_lstrip (l : list ascii) : head_ok l -> lstrip l = l.
Proof. destruct l as [|c l]; cbn; [reflexivity | intros ->; reflexivity]. Qed.

Lemma lstrip_snoc (l : list ascii) (c : ascii) :
  is_space c = false -> lstrip (l ++ [c]) = lstrip l ++ [c].
Proof.
  intros Hc. induction l as [|x l IH]; cbn.
  - now rewrite Hc.
  - destruct (is_space x); [exact IH | reflexivity].
Qed.

Lemma rstrip_head_ok (l : list ascii) : head_ok l -> head_ok (rstrip l).
Proof.
  destruct l as [|c l]; [intros _; exact I|].
  cbn [head_ok]. intros Hc. unfold rstrip. cbn [rev].
  rewrite (lstrip_snoc _ _ Hc), rev_app_distr. exact Hc.
Qed.

Lemma strip_head_ok (l : list ascii) : head_ok (strip l).
Proof. apply rstrip_head_ok, lstrip_head_ok. Qed.

Lemma strip_last_ok (l : list ascii) : head_ok (rev (strip l)).
Proof.
  unfold strip, rstrip. rewrite rev_involutive. apply lstrip_head_ok.
Qed.

Lemma strip_fixed (l : list ascii) :
  head_ok l -> head_ok (rev l) -> strip l = l.
Proof.
  intros H1 H2. unfold strip, rstrip.
  now rewrite (head_ok_lstrip _ H1), (head_ok_lstrip _ H2), rev_involutive.
Qed.

Lemma map_norm_head_ok (l : list ascii) :
  head_ok l -> head_ok (map norm_char l).
Proof. destruct l; cbn; [trivial | apply norm_char_not_space]. Qed.

Lemma normalize_chars_idem (l : list ascii) :
  normalize_chars (normalize_chars l) = normalize_chars l.
Proof.
  rewrite !normalize_chars_fused.
  rewrite strip_fixed.
  - rewrite map_map. apply map_ext. intros c. apply norm_char_idem.
  - apply map_norm_head_ok, strip_head_ok.
  - rewrite <- map_rev. apply map_norm_head_ok, strip_last_ok.
Qed.

Lemma normalize_name_idem (s : string) :
  normalize_name (normalize_name s) = normalize_name s.
Proof.
  unfold normalize_name.
  now rewrite list_ascii_of_string_of_list_ascii, normalize_chars_idem.
Qed.

End ColumnNames.

(** ** Calendar dates

    [pd.to_datetime] is pandas' parser; a parsed timestamp is taken as its
    calendar date. *)

Module Dates.

Record date := mkDate { year : Z; month : Z; day : Z }.

Definition date_eqb (a b : date) : bool :=
  ((year a =? year b) && (month a =? month b) && (day a =? day b))%Z.

(** Days since 1970-01-01 in the proleptic Gregorian calendar. *)
Definition days_from_civil (d : date) : Z :=
  (let y := if month d <=? 2 then year d - 1 else year d in
   let era := y / 400 in
   let yoe := y - era * 400 in
   let mp := (month d + 9) mod 12 in
   let doy := (153 * mp + 2) / 5 + day d - 1 in
   let doe := yoe * 365 + yoe / 4 - yoe / 100 + doy in
   era * 146097 + doe - 719468)%Z.

Definition day_names : list string :=
  ["Monday"; "Tuesday"; "Wednesday"; "Thursday"; "Friday"; "Saturday";
   "Sunday"]%string.

(** [dt.day_name()]: 1970-01-01 was a Thursday. *)
Definition day_name (d : date) : string :=
  nth (Z.to_nat ((days_from_civil d + 3) mod 7)) day_names ""%string.

(** [dt.quarter]. *)
Definition quarter (d : date) : Z := ((month d - 1) / 3 + 1)%Z.

Definition date_leb (a b : date) : bool :=
  (days_from_civil a <=? days_from_civil b)%Z.

Example epoch_day : days_from_civil (mkDate 1970 1 1) = 0%Z.
Proof. reflexivity. Qed.

Example leap_day :
  (days_from_civil (mkDate 2016 3 1) - days_from_civil (mkDate 2016 2 28)
   = 2)%Z.
Proof. reflexivity. Qed.

Example tuesday : day_name (mkDate 2016 11 8) = "Tuesday"%string.
Proof. reflexivity. Qed.

End Dates.
Export Dates.

(** ** Tables *)

(** One row of the raw Superstore file, in header order. *)
Record RawRow := mkRaw {
  row_id : Z;
  order_id : string;
  order_date : date;
  ship_date : date;
  ship_mode : string;
  customer_id : string;
  customer_name : string;
  segment : string;
  country : string;
  city : string;
  state : string;
  postal_code : option Z;
  region : string;
  product_id : string;
  category : string;
  sub_category : string;
  product_name : string;
  sales : Q;
  quantity : Z;
  discount : Q;
  profit : Q
}.

Definition option_Z_eqb (a b : option Z) : bool :=
  match a, b with
  | Some x, Some y => (x =? y)%Z
  | None, None => true
  | _, _ => false
  end.

(** Two rows are duplicates when every column holds the same value (a
    missing cell equals a missing cell). *)
Definition RawRow_eqb (a b : RawRow) : bool :=
  (row_id a =? row_id b)%Z
  && String.eqb (order_id a) (order_id b)
  && date_eqb (order_date a) (order_date b)
  && date_eqb (ship_date a) (ship_date b)
  && String.eqb (ship_mode a) (ship_mode b)
  && String.eqb (customer_id a) (customer_id b)
  && String.eqb (customer_name a) (customer_name b)
  && String.eqb (segment a) (segment b)
  && String.eqb (country a) (country b)
  && String.eqb (city a) (city b)
  && String.eqb (state a) (state b)
  && option_Z_eqb (postal_code a) (postal_code b)
  && String.eqb (region a) (region b)
  && String.eqb (product_id a) (product_id b)
  && String.eqb (category a) (category b)
  && String.eqb (sub_category a) (sub_category b)
  && String.eqb (product_name a) (product_name b)
  && Qeq_bool (sales a) (sales b)
  && (quantity a =? quantity b)%Z
  && Qeq_bool (discount a) (discount b)
  && Qeq_bool (profit a) (profit b).

(** ** [DataFrame.drop_duplicates] (keep the first occurrence) *)

Section DropDuplicates.

Context {A : Type} (eqb : A -> A -> bool).

(** [DataFrame.duplicated()]: the mask of rows equal to an earlier row;
    [prev] holds the rows already passed. *)
Fixpoint duplicated_from (prev l : list A) : list bool :=
  match l with
  | [] => []
  | x :: l' => existsb (eqb x) prev :: duplicated_from (x :: prev) l'
  end.


(** [df[~mask]]. *)
Fixpoint select_not (mask : list bool) (l : list A) : list A :=
  match mask, l with
  | m :: mask', x :: l' =>
      if m then select_not mask' l' else x :: select_not mask' l'
  | _, _ => []
  end.

Definition drop_duplicates_from (prev l : list A) : list A :=
  select_not (duplicated_from prev l) l.

Definition drop_duplicates (l : list A) : list A :=
  drop_duplicates_from [] l.


(** No row equals a later row. *)
Definition no_duplicates (l : list A) : Prop :=
  ForallOrdPairs (fun a b => eqb b a = false) l.

Lemma drop_duplicates_from_cons (prev : list A) (x : A) (l : list A) :
  drop_duplicates_from prev (x :: l) =
  if existsb (eqb x) prev then drop_duplicates_from (x :: prev) l
  else x :: drop_duplicates_from (x :: prev) l.
Proof. reflexivity. Qed.

Lemma drop_duplicates_from_incl (prev l : list A) (x : A) :
  In x (drop_duplicates_from prev l) -> In x l.
Proof.
  revert prev. induction l as [|y l IH]; intros prev; [intros []|].
  rewrite drop_duplicates_from_cons.
  destruct (existsb (eqb y) prev).
  - intros H. right. eapply IH, H.
  - intros [->|H]; [now left | right; eapply IH, H].
Qed.





Hypothesis eqb_refl : forall a, eqb a a = true.
Hypothesis eqb_trans :
  forall a b c, eqb a b = true -> eqb b c = true -> eqb a c = true.

(** Every row of the input survives up to equality: either it is kept or
    an equal row was seen before. *)
Lemma drop_duplicates_from_covers (prev l : list A) (x : A) :
  In x l ->
  (exists y, In y (drop_duplicates_from prev l) /\ eqb x y = true)
  \/ (exists p, In p prev /\ eqb x p = true).
Proof.
  revert prev. induction l as [|h l IH]; intros prev; [intros []|].
  rewrite drop_duplicates_from_cons. intros [->|Hx].
  - destruct (existsb (eqb x) prev) eqn:E.
    + right. apply existsb_exists in E. exact E.
    + left. exists x. split; [now left | apply eqb_refl].
  - destruct (IH (h :: prev) Hx) as [(y & Hy & E)|(p & [<-|Hp] & E)].
    + left. exists y. split; [|exact E].
      destruct (existsb (eqb h) prev); [exact Hy | now right].
    + destruct (existsb (eqb h) prev) eqn:Eh.
      * right. apply existsb_exists in Eh as (p & Hp & Eh).
        exists p. split; [exact Hp | eapply eqb_trans; eassumption].
      * left. exists h. split; [now left | exact E].
    + right. eauto.
Qed.

Lemma drop_duplicates_covers (l : list A) (x : A) :
  In x l -> exists y, In y (drop_duplicates l) /\ eqb x y = true.
Proof.
  intros H. destruct (drop_duplicates_from_covers [] l x H)
    as [?|(p & [] & _)]. assumption.
Qed.

(** The result has no duplicates and none of its rows was seen before. *)
Lemma drop_duplicates_from_no_duplicates (prev l : list A) :
  no_duplicates (drop_duplicates_from prev l) /\
  (forall x p, In x (drop_duplicates_from prev l) -> In p prev ->
               eqb x p = false).
Proof.
  revert prev. induction l as [|h l IH]; intros prev.
  - split; [constructor | intros x p []].
  - rewrite drop_duplicates_from_cons.
    destruct (IH (h :: prev)) as [Hnd Hprev].
    destruct (existsb (eqb h) prev) eqn:E.
    + split; [exact Hnd|]. intros x p Hx Hp. apply Hprev; [exact Hx|].
      now right.
    + split.
      * constructor; [|exact Hnd]. apply Forall_forall. intros y Hy.
        apply Hprev; [exact Hy | now left].
      * intros x p [<-|Hx] Hp.
        -- apply not_true_iff_false. intros Ex.
           assert (existsb (eqb h) prev = true)
             by (apply existsb_exists; eauto).
           congruence.
        -- apply Hprev; [exact Hx | now right].
Qed.


End DropDuplicates.

(** *** Row equality, column by column *)

Definition rows_equal (a b : RawRow) : Prop :=
  row_id a = row_id b /\ order_id a = order_id b /\
  order_date a = order_date b /\ ship_date a = ship_date b /\
  ship_mode a = ship_mode b /\ customer_id a = customer_id b /\
  customer_name a = customer_name b /\ segment a = segment b /\
  country a = country b /\ city a = city b /\ state a = state b /\
  postal_code a = postal_code b /\ region a = region b /\
  product_id a = product_id b /\ category a = category b /\
  sub_category a = sub_category b /\ product_name a = product_name b /\
  sales a == sales b /\ quantity a = quantity b /\
  discount a == discount b /\ profit a == profit b.

Lemma date_eqb_eq (a b : date) : date_eqb a b = true <-> a = b.
Proof.
  unfold date_eqb. rewrite !andb_true_iff, !Z.eqb_eq.
  destruct a, b; cbn. split.
  - intros [[-> ->] ->]. reflexivity.
  - intros [= -> -> ->]. auto.
Qed.

Lemma option_Z_eqb_eq (a b : option Z) : option_Z_eqb a b = true <-> a = b.
Proof.
  destruct a, b; cbn; try rewrite Z.eqb_eq;
    split; congruence.
Qed.

Lemma RawRow_eqb_spec (a b : RawRow) :
  RawRow_eqb a b = true <-> rows_equal a b.
Proof.
  unfold RawRow_eqb, rows_equal.
  rewrite !andb_true_iff, !Z.eqb_eq, !String.eqb_eq, !date_eqb_eq,
    option_Z_eqb_eq, !Qeq_bool_iff.
  tauto.
Qed.


Lemma rows_equal_sym (a b : RawRow) : rows_equal a b -> rows_equal b a.
Proof. unfold rows_equal. intuition (symmetry; assumption). Qed.



Lemma RawRow_eqb_sym (a b : RawRow) : RawRow_eqb a b = RawRow_eqb b a.
Proof.
  apply eq_true_iff_eq. rewrite !RawRow_eqb_spec.
  split; apply rows_equal_sym.
Qed.


(** ** Feature engineering of [clean_data] *)

Definition Z_to_string (z : Z) : string := NilZero.string_of_int (Z.to_int z).

(** [fillna(0).astype(int)] where cells are missing, then [astype(str)]. *)
Definition postal_code_text (p : option Z) : string :=
  match p with
  | Some z => Z_to_string z
  | None => Z_to_string 0
  end.

(** [np.where(sales != 0, (profit / sales * 100).round(2), 0.0)]. *)
Definition margin_pct (sales profit : Q) : Q :=
  if Qeq_bool sales 0 then 0 else np_round2 (profit / sales * 100).

(** [np.where(quantity != 0, (sales / quantity).round(2), 0.0)]. *)
Definition per_unit (sales : Q) (quantity : Z) : Q :=
  if (quantity =? 0)%Z then 0 else np_round2 (sales / inject_Z quantity).

(** A cleaned record: the raw columns and the derived ones. *)
Record CleanRow := mkClean {
  raw : RawRow;
  postal_code_str : string;
  delivery_days : Z;
  profit_margin_pct : Q;
  revenue_per_unit : Q;
  order_year : Z;
  order_month : Z;
  order_quarter : Z;
  order_day_of_week : string;
  is_profitable : bool;
  discount_bucket : option string
}.

Definition derive (r : RawRow) : CleanRow :=
  {| raw := r;
     postal_code_str := postal_code_text (postal_code r);
     delivery_days :=
       (days_from_civil (ship_date r) - days_from_civil (order_date r))%Z;
     profit_margin_pct := margin_pct (sales r) (profit r);
     revenue_per_unit := per_unit (sales r) (quantity r);
     order_year := year (order_date r);
     order_month := month (order_date r);
     order_quarter := quarter (order_date r);
     order_day_of_week := day_name (order_date r);
     is_profitable := negb (Qle_bool (profit r) 0);
     discount_bucket := cut_discount (discount r) |}.

Record RawFrame := mkRawFrame {
  raw_columns : list string;
  raw_rows : list RawRow
}.

Record CleanFrame := mkCleanFrame {
  columns : list string;
  rows : list CleanRow
}.

(** [df[name] = ...]: an existing column is overwritten in place, a new one
    is appended. *)
Definition assign_column (name : string) (cols : list string) : list string :=
  if existsb (String.eqb name) cols then cols else cols ++ [name].

Definition derived_columns : list string :=
  ["order_date"; "ship_date"; "postal_code"; "quantity"; "discount";
   "delivery_days"; "profit_margin_pct"; "revenue_per_unit"; "order_year";
   "order_month"; "order_quarter"; "order_day_of_week"; "is_profitable";
   "discount_bucket"]%string.

(** The table built by [clean_data]: duplicates dropped, header
    normalised, features derived row by row. *)
Definition clean_frame (df : RawFrame) : CleanFrame :=
  let kept := drop_duplicates RawRow_eqb (raw_rows df) in
  let cols := ColumnNames.normalize_columns (raw_columns df) in
  {| columns := fold_left (fun cs n => assign_column n cs) derived_columns cols;
     rows := map derive kept |}.

Example postal_text : postal_code_text (Some 42420%Z) = "42420"%string.
Proof. reflexivity. Qed.

Example margin_example : margin_pct 50 (-10) == - (20).
Proof. reflexivity. Qed.

(** ** A small relational core for the SQL of [run_analysis_queries] *)

Module Sql.

Section OrderBy.

Context {A : Type} (leb : A -> A -> bool).

(** SQLite's sorter is stable: a row goes in front of the first row
    that does not sort strictly before it, so rows with equal keys
    stay in arrival order, for [ASC] and [DESC] alike. *)
Fixpoint insert_sorted (x : A) (l : list A) : list A :=
  match l with
  | [] => [x]
  | y :: l' => if leb x y then x :: l else y :: insert_sorted x l'
  end.

Definition order_by (l : list A) : list A :=
  fold_right insert_sorted [] l.

Lemma insert_sorted_perm (x : A) (l : list A) :
  Permutation (insert_sorted x l) (x :: l).
Proof.
  induction l as [|y l IH]; cbn; [reflexivity|].
  destruct (leb x y); [reflexivity|].
  rewrite IH. apply perm_swap.
Qed.

Lemma order_by_perm (l : list A) : Permutation (order_by l) l.
Proof.
  induction l as [|x l IH]; cbn; [reflexivity|].
  rewrite insert_sorted_perm. now constructor.
Qed.

Lemma order_by_length (l : list A) :
  List.length (order_by l) = List.length l.
Proof. apply Permutation_length, order_by_perm. Qed.

Lemma order_by_In (l : list A) (x : A) : In x (order_by l) <-> In x l.
Proof.
  split; apply Permutation_in;
    [apply order_by_perm | symmetry; apply order_by_perm].
Qed.

Hypothesis leb_total : forall a b, leb a b = true \/ leb b a = true.
Hypothesis leb_trans :
  forall a b c, leb a b = true -> leb b c = true -> leb a c = true.

Let le (a b : A) : Prop := leb a b = true.

Lemma insert_sorted_sorted (x : A) (l : list A) :
  StronglySorted le l -> StronglySorted le (insert_sorted x l).
Proof.
  induction 1 as [|y l Hl IH Hy]; cbn.
  - repeat constructor.
  - destruct (leb x y) eqn:E.
    + constructor; [now constructor|].
      constructor; [exact E|].
      rewrite Forall_forall in *. intros z Hz.
      eapply leb_trans; [exact E | now apply Hy].
    + constructor; [exact IH|].
      rewrite Forall_forall in *. intros z Hz.
      apply (Permutation_in _ (insert_sorted_perm x l)) in Hz.
      destruct Hz as [<-|Hz]; [|now apply Hy].
      destruct (leb_total x y) as [E'|E']; [congruence | exact E'].
Qed.

Lemma order_by_sorted (l : list A) : StronglySorted le (order_by l).
Proof.
  induction l as [|x l IH]; cbn; [constructor|].
  now apply insert_sorted_sorted.
Qed.

End OrderBy.

(** A list sorted by a strict order is determined by its elements. *)
Lemma sorted_perm_unique {A : Type} (lt : A -> A -> Prop) :
  (forall a, ~ lt a a) ->
  (forall a b c, lt a b -> lt b c -> lt a c) ->
  forall l1 l2, StronglySorted lt l1 -> StronglySorted lt l2 ->
                Permutation l1 l2 -> l1 = l2.
Proof.
  intros Hirr Htr l1. induction l1 as [|a l1 IH]; intros l2 H1 H2 HP.
  - apply Permutation_nil in HP. now subst.
  - destruct l2 as [|b l2];
      [apply Permutation_sym, Permutation_nil in HP; discriminate|].
    apply StronglySorted_inv in H1 as [H1 Ha].
    apply StronglySorted_inv in H2 as [H2 Hb].
    rewrite Forall_forall in Ha, Hb.
    assert (a = b) as <-.
    { assert (Hab : In a (b :: l2))
        by (eapply Permutation_in; [exact HP | now left]).
      assert (Hba : In b (a :: l1))
        by (eapply Permutation_in;
            [symmetry; exact HP | now left]).
      destruct Hab as [E|Hab]; [now symmetry|].
      destruct Hba as [E|Hba]; [exact E|].
      exfalso. apply (Hirr a). eapply Htr; [apply Ha | apply Hb]; eauto. }
    f_equal. apply IH; try assumption.
    eapply Permutation_cons_inv, HP.
Qed.

Lemma StronglySorted_snoc {A : Type} (R : A -> A -> Prop)
      (l : list A) (x : A) :
  StronglySorted R l -> Forall (fun y => R y x) l ->
  StronglySorted R (l ++ [x]).
Proof.
  induction 1 as [|y l Hl IH Hy]; intros Hx; cbn.
  - repeat constructor.
  - apply Forall_cons_iff in Hx as [Hyx Hx].
    constructor; [now apply IH|].
    apply Forall_app. split; [exact Hy | now repeat constructor].
Qed.

Lemma StronglySorted_rev {A : Type} (R : A -> A -> Prop) (l : list A) :
  StronglySorted R l -> StronglySorted (fun a b => R b a) (rev l).
Proof.
  induction 1 as [|x l Hl IH Hx]; cbn; [constructor|].
  apply StronglySorted_snoc; [exact IH|].
  now apply Forall_rev.
Qed.

(** [LIMIT n]. *)
Definition limit {A : Type} (n : nat) (l : list A) : list A := firstn n l.

Section GroupBy.

Context {R K : Type} (keqb kleb : K -> K -> bool) (key : R -> K).

Definition distinct_keys (t : list R) : list K :=
  drop_duplicates keqb (map key t).

(** [GROUP BY key]: one group per distinct key holding the rows with
    that key in table order; groups leave in ascending key order. *)
Definition group_by (t : list R) : list (K * list R) :=
  map (fun k => (k, filter (fun r => keqb (key r) k) t))
      (order_by kleb (distinct_keys t)).

Lemma group_by_keys (t : list R) :
  map fst (group_by t) = order_by kleb (distinct_keys t).
Proof.
  unfold group_by. rewrite map_map. cbn. apply map_id.
Qed.

Hypothesis keqb_eq : forall a b, keqb a b = true <-> a = b.

Lemma keqb_refl (a : K) : keqb a a = true.
Proof. now apply keqb_eq. Qed.

Lemma keqb_sym (a b : K) : keqb a b = keqb b a.
Proof. apply eq_true_iff_eq. rewrite !keqb_eq. split; congruence. Qed.

Lemma keqb_trans (a b c : K) :
  keqb a b = true -> keqb b c = true -> keqb a c = true.
Proof. rewrite !keqb_eq. congruence. Qed.

Lemma no_duplicates_NoDup (l : list K) :
  no_duplicates keqb l -> NoDup l.
Proof.
  induction 1 as [|x l Hx Hl IH]; constructor; [|exact IH].
  intros Hin. rewrite Forall_forall in Hx.
  specialize (Hx x Hin). rewrite keqb_refl in Hx. discriminate.
Qed.

Lemma distinct_keys_In (t : list R) (k : K) :
  In k (distinct_keys t) <-> exists r, In r t /\ key r = k.
Proof.
  unfold distinct_keys. split.
  - intros H. apply drop_duplicates_from_incl in H.
    apply in_map_iff in H as (r & <- & Hr). eauto.
  - intros (r & Hr & <-).
    destruct (drop_duplicates_covers keqb keqb_refl keqb_trans
                (map key t) (key r)) as (y & Hy & E).
    + now apply in_map.
    + apply keqb_eq in E. now rewrite E.
Qed.

Lemma group_by_NoDup (t : list R) : NoDup (map fst (group_by t)).
Proof.
  rewrite group_by_keys.
  eapply Permutation_NoDup; [symmetry; apply order_by_perm|].
  apply no_duplicates_NoDup.
  apply drop_duplicates_from_no_duplicates.
Qed.

Lemma group_by_In (t : list R) (k : K) (g : list R) :
  In (k, g) (group_by t) <->
  g = filter (fun r => keqb (key r) k) t /\
  exists r, In r t /\ key r = k.
Proof.
  unfold group_by. rewrite in_map_iff. split.
  - intros (k' & [= <- <-] & Hk). split; [reflexivity|].
    apply distinct_keys_In. now apply order_by_In in Hk.
  - intros [-> Hk]. exists k. split; [reflexivity|].
    apply order_by_In. now apply distinct_keys_In.
Qed.

End GroupBy.

(** [a LEFT JOIN b ON on]: every match of a left row, or the left row
    alone with the right side NULL. *)
Definition left_join {A B : Type} (on : A -> B -> bool)
           (l : list A) (r : list B) : list (A * option B) :=
  flat_map (fun a =>
              match filter (on a) r with
              | [] => [(a, None)]
              | ms => map (fun b => (a, Some b)) ms
              end) l.

Lemma left_join_In {A B : Type} (on : A -> B -> bool)
      (l : list A) (r : list B) (a : A) (ob : option B) :
  In (a, ob) (left_join on l r) <->
  In a l /\
  match ob with
  | None => forall b, In b r -> on a b = false
  | Some b => In b r /\ on a b = true
  end.
Proof.
  unfold left_join. rewrite in_flat_map. split.
  - intros (a' & Ha & H).
    destruct (filter (on a') r) as [|m ms] eqn:E.
    + destruct H as [[= <- <-]|[]]. split; [exact Ha|].
      intros b Hb. apply not_true_iff_false. intros Eb.
      assert (In b (filter (on a') r)) by (apply filter_In; auto).
      rewrite E in *. contradiction.
    + rewrite <- E in H. apply in_map_iff in H as (b & [= <- <-] & Hb).
      apply filter_In in Hb. auto.
  - intros [Ha H]. exists a. split; [exact Ha|].
    destruct ob as [b|].
    + destruct H as [Hb E].
      assert (Hf : In b (filter (on a) r)) by (apply filter_In; auto).
      destruct (filter (on a) r) as [|m ms]; [contradiction|].
      apply in_map_iff. eauto.
    + destruct (filter (on a) r) as [|m ms] eqn:E; [now left|].
      assert (Hm : In m (filter (on a) r)) by (rewrite E; now left).
      apply filter_In in Hm as [Hm Em]. rewrite (H m Hm) in Em.
      discriminate.
Qed.

(** *** Scalar expressions over nullable reals *)

Definition sql_sub (a b : option Q) : option Q :=
  match a, b with
  | Some x, Some y => Some (x - y)
  | _, _ => None
  end.

Definition sql_mul (a b : option Q) : option Q :=
  match a, b with
  | Some x, Some y => Some (x * y)
  | _, _ => None
  end.

(** SQLite yields NULL for a division by zero. *)
Definition sql_div (a b : option Q) : option Q :=
  match a, b with
  | Some x, Some y => if Qeq_bool y 0 then None else Some (x / y)
  | _, _ => None
  end.

Definition sql_round_null (a : option Q) (n : nat) : option Q :=
  match a with
  | Some x => Some (sql_round x n)
  | None => None
  end.

(** *** Aggregates *)

Definition sum_real (l : list Q) : Q := fold_left Qplus l 0.

Definition sum_int (l : list Z) : Z := fold_left Z.add l 0%Z.

Definition avg (l : list Q) : Q :=
  sum_real l / inject_Z (Z.of_nat (List.length l)).

Definition count_distinct (l : list string) : nat :=
  List.length (drop_duplicates String.eqb l).

Definition count_if {A : Type} (p : A -> bool) (l : list A) : Z :=
  sum_int (map (fun r => if p r then 1%Z else 0%Z) l).

End Sql.
Export Sql.

(** ** The [sales] table written by [load_to_database] *)

Definition pad2 (z : Z) : string :=
  if (z <? 10)%Z then ("0" ++ Z_to_string z)%string else Z_to_string z.

(** [astype(str)] of a [datetime64] cell at midnight. *)
Definition date_text (d : date) : string :=
  (Z_to_string (year d) ++ "-" ++ pad2 (month d) ++ "-" ++ pad2 (day d))%string.

(** [astype(str)] of a categorical cell; a missing one prints as [nan]. *)
Definition category_text (c : option string) : string :=
  match c with
  | Some s => s
  | None => "nan"%string
  end.

(** A stored row: the cleaned record with the converted columns as text. *)
Record DbRow := mkDb {
  rec : CleanRow;
  order_date_text : string;
  ship_date_text : string;
  discount_bucket_text : string
}.

Definition to_db_row (c : CleanRow) : DbRow :=
  {| rec := c;
     order_date_text := date_text (order_date (raw c));
     ship_date_text := date_text (ship_date (raw c));
     discount_bucket_text := category_text (discount_bucket c) |}.

Definition to_sql (df : CleanFrame) : list DbRow := map to_db_row (rows df).

(** Column accessors on stored rows. *)
Definition db_sales (r : DbRow) : Q := sales (raw (rec r)).
Definition db_profit (r : DbRow) : Q := profit (raw (rec r)).
Definition db_quantity (r : DbRow) : Z := quantity (raw (rec r)).
Definition db_discount (r : DbRow) : Q := discount (raw (rec r)).
Definition db_order_id (r : DbRow) : string := order_id (raw (rec r)).
Definition db_order_year (r : DbRow) : Z := order_year (rec r).
Definition db_margin (r : DbRow) : Q := profit_margin_pct (rec r).

(** ** The queries of [run_analysis_queries] *)

Module Queries.

(** *** [top_products] and [worst_products] *)

Definition product_key : Type := string * string * string.

Definition product_key_of (r : DbRow) : product_key :=
  (product_name (raw (rec r)), category (raw (rec r)),
   sub_category (raw (rec r))).

Definition product_key_eqb (a b : product_key) : bool :=
  let '(a1, a2, a3) := a in
  let '(b1, b2, b3) := b in
  String.eqb a1 b1 && String.eqb a2 b2 && String.eqb a3 b3.

(** Binary collation, column by column. *)
Definition product_key_leb (a b : product_key) : bool :=
  let '(a1, a2, a3) := a in
  let '(b1, b2, b3) := b in
  match String.compare a1 b1 with
  | Lt => true
  | Gt => false
  | Eq => match String.compare a2 b2 with
          | Lt => true
          | Gt => false
          | Eq => String.leb a3 b3
          end
  end.

Record ProductRow := mkProduct {
  p_product_name : string;
  p_category : string;
  p_sub_category : string;
  total_sales : Q;
  total_profit : Q;
  units_sold : Z;
  avg_discount : Q
}.

Definition product_row (g : product_key * list DbRow) : ProductRow :=
  let '((n, c, s), rs) := g in
  {| p_product_name := n;
     p_category := c;
     p_sub_category := s;
     total_sales := sql_round (sum_real (map db_sales rs)) 2;
     total_profit := sql_round (sum_real (map db_profit rs)) 2;
     units_sold := sum_int (map db_quantity rs);
     avg_discount := sql_round (avg (map db_discount rs)) 2 |}.

(** [SELECT ... FROM sales GROUP BY product_name, category,
    sub_category], before ordering. *)
Definition product_groups (t : list DbRow) : list ProductRow :=
  map product_row (group_by product_key_eqb product_key_leb
                            product_key_of t).

Definition profit_desc (a b : ProductRow) : bool :=
  Qle_bool (total_profit b) (total_profit a).

Definition profit_asc (a b : ProductRow) : bool :=
  Qle_bool (total_profit a) (total_profit b).

(** [ORDER BY total_profit DESC LIMIT 15]. *)
Definition top_products (t : list DbRow) : list ProductRow :=
  limit 15 (order_by profit_desc (product_groups t)).

(** [ORDER BY total_profit ASC LIMIT 15]. *)
Definition worst_products (t : list DbRow) : list ProductRow :=
  limit 15 (order_by profit_asc (product_groups t)).

(** *** [discount_impact] *)

Record DiscountRow := mkDiscount {
  d_discount_bucket : string;
  transaction_count : nat;
  d_total_revenue : Q;
  d_total_profit : Q;
  avg_profit_margin : Q;
  loss_count : Z
}.

Definition discount_row (g : string * list DbRow) : DiscountRow :=
  let '(b, rs) := g in
  {| d_discount_bucket := b;
     transaction_count := List.length rs;
     d_total_revenue := sql_round (sum_real (map db_sales rs)) 2;
     d_total_profit := sql_round (sum_real (map db_profit rs)) 2;
     avg_profit_margin := sql_round (avg (map db_margin rs)) 2;
     loss_count :=
       count_if (fun r => negb (Qle_bool 0 (db_profit r))) rs |}.

Definition bucket_asc (a b : DiscountRow) : bool :=
  String.leb (d_discount_bucket a) (d_discount_bucket b).

(** [GROUP BY discount_bucket ORDER BY discount_bucket]. *)
Definition discount_impact (t : list DbRow) : list DiscountRow :=
  order_by bucket_asc
    (map discount_row
         (group_by String.eqb String.leb discount_bucket_text t)).

(** *** [yoy_growth] *)

Record YearRow := mkYear {
  y_order_year : Z;
  y_revenue : Q;
  y_profit : Q;
  y_orders : nat
}.

Definition rows_of_year (t : list DbRow) (y : Z) : list DbRow :=
  filter (fun r => (db_order_year r =? y)%Z) t.

Definition year_row (g : Z * list DbRow) : YearRow :=
  let '(y, rs) := g in
  {| y_order_year := y;
     y_revenue := sql_round (sum_real (map db_sales rs)) 2;
     y_profit := sql_round (sum_real (map db_profit rs)) 2;
     y_orders := count_distinct (map db_order_id rs) |}.

(** The common table expression [yearly]. *)
Definition yearly (t : list DbRow) : list YearRow :=
  map year_row (group_by Z.eqb Z.leb db_order_year t).

Record YoyRow := mkYoy {
  yoy_order_year : Z;
  revenue : Q;
  yoy_profit : Q;
  orders : nat;
  revenue_growth_pct : option Q;
  profit_growth_pct : option Q
}.

(** [ROUND((cur - prev) / prev * 100, 2)] with [prev] possibly NULL. *)
Definition growth_pct (cur : Q) (prev : option Q) : option Q :=
  sql_round_null
    (sql_mul (sql_div (sql_sub (Some cur) prev) prev) (Some 100)) 2.

Definition yoy_row (j : YearRow * option YearRow) : YoyRow :=
  let '(y, prev) := j in
  {| yoy_order_year := y_order_year y;
     revenue := y_revenue y;
     yoy_profit := y_profit y;
     orders := y_orders y;
     revenue_growth_pct := growth_pct (y_revenue y) (option_map y_revenue prev);
     profit_growth_pct := growth_pct (y_profit y) (option_map y_profit prev) |}.

Definition year_asc (a b : YoyRow) : bool :=
  (yoy_order_year a <=? yoy_order_year b)%Z.

(** [FROM yearly y LEFT JOIN yearly prev ON y.order_year =
    prev.order_year + 1 ORDER BY y.order_year]. *)
Definition yoy_growth (t : list DbRow) : list YoyRow :=
  let ys := yearly t in
  order_by year_asc
    (map yoy_row
         (left_join (fun y p => (y_order_year y =? y_order_year p + 1)%Z)
                    ys ys)).

End Queries.
Export Queries.

(** ** The stateful layer: files, objects, console, database *)

Module Pipeline.

Inductive exn :=
| SystemExit (code : Z)
| FileNotFoundError (path : string)
| TypeError
| OperationalError.

(** [except Exception] catches everything but [SystemExit]. *)
Definition is_Exception (e : exn) : bool :=
  match e with
  | SystemExit _ => false
  | _ => true
  end.

Inductive outcome (A : Type) :=
| Ok (a : A)
| Raise (e : exn).
Arguments Ok {A} a.
Arguments Raise {A} e.

(** What [validate_data] prints. *)
Record QualityReport := mkReport {
  total_records : nat;
  total_columns : nat;
  date_range : option (date * date);
  unique_orders : nat;
  unique_customers : nat;
  unique_products : nat;
  total_revenue : Q;
  total_profit_sum : Q;
  avg_margin : option Q;
  null_columns : list (string * nat);
  loss_making : nat;
  loss_pct : option Q
}.

Record QueryResults := mkResults {
  res_top_products : list ProductRow;
  res_worst_products : list ProductRow;
  res_discount_impact : list DiscountRow;
  res_yoy_growth : list YoyRow
}.

(** Console lines, by content. *)
Inductive line :=
| BannerLine
| StepLine (n : nat)
| FileNotFoundLine (path : string)
| ExtractedLine (records cols : nat)
| RemovedDuplicatesLine (n : nat)
| CleaningCompleteLine (records cols : nat)
| QualityReportLine (rep : QualityReport)
| LoadedLine (records : nat) (db_path : string)
| QueryLine (name : string) (nrows : nat)
| PipelineErrorLine (e : exn).

(** Python objects the pipeline passes by reference. *)
Inductive object :=
| ONone
| ORaw (df : RawFrame)
| OClean (df : CleanFrame).

Definition ref := nat.

Record World := mkWorld {
  files : string -> option RawFrame;
  heap : list object;
  stdout : list line;
  database : option (list DbRow);
  exports : option QueryResults
}.

Definition M (A : Type) : Type := World -> outcome A * World.

Definition ret {A : Type} (a : A) : M A := fun w => (Ok a, w).

Definition bind {A B : Type} (m : M A) (k : A -> M B) : M B :=
  fun w =>
    match m w with
    | (Ok a, w') => k a w'
    | (Raise e, w') => (Raise e, w')
    end.

Definition raise {A : Type} (e : exn) : M A := fun w => (Raise e, w).

Notation "x <- m ;; k" := (bind m (fun x => k))
  (at level 61, m at next level, right associativity).
Notation "m ;;; k" := (bind m (fun _ => k))
  (at level 61, right associativity).

Definition with_stdout (w : World) (out : list line) : World :=
  {| files := files w; heap := heap w; stdout := out;
     database := database w; exports := exports w |}.

Definition print (l : line) : M unit :=
  fun w => (Ok tt, with_stdout w (stdout w ++ [l])).

Definition deref (r : ref) : M object :=
  fun w => (Ok (nth r (heap w) ONone), w).

Definition alloc (o : object) : M ref :=
  fun w => (Ok (List.length (heap w)),
            {| files := files w; heap := heap w ++ [o];
               stdout := stdout w; database := database w;
               exports := exports w |}).

Definition path_exists (path : string) : M bool :=
  fun w => (Ok (match files w path with
                | Some _ => true
                | None => false
                end), w).

Definition read_csv (path : string) : M RawFrame :=
  fun w =>
    match files w path with
    | Some df => (Ok df, w)
    | None => (Raise (FileNotFoundError path), w)
    end.

(** *** [extract_data] *)

Definition extract_data (filepath : string) : M ref :=
  present <- path_exists filepath ;;
  (if negb present
   then print (FileNotFoundLine filepath) ;;; raise (SystemExit 1)
   else ret tt) ;;;
  df <- read_csv filepath ;;
  r <- alloc (ORaw df) ;;
  print (ExtractedLine (List.length (raw_rows df))
                       (List.length (raw_columns df))) ;;;
  ret r.

(** *** [clean_data] *)

Definition clean_data (r : ref) : M ref :=
  o <- deref r ;;
  match o with
  | ORaw df =>
      let initial_rows := List.length (raw_rows df) in
      let cleaned := clean_frame df in
      let removed := (initial_rows - List.length (rows cleaned))%nat in
      (if (0 <? removed)%nat then print (RemovedDuplicatesLine removed)
       else ret tt) ;;;
      r' <- alloc (OClean cleaned) ;;
      print (CleaningCompleteLine (List.length (rows cleaned))
                                  (List.length (columns cleaned))) ;;;
      ret r'
  | _ => raise TypeError
  end.

(** *** [validate_data] *)

Definition min_max_date (ds : list date) : option (date * date) :=
  match ds with
  | [] => None
  | d :: ds' =>
      Some (fold_left (fun m x => if date_leb x m then x else m) ds' d,
            fold_left (fun m x => if date_leb m x then x else m) ds' d)
  end.

Definition mean (l : list Q) : option Q :=
  match l with
  | [] => None
  | _ => Some (avg l)
  end.

Definition count_true {A : Type} (p : A -> bool) (l : list A) : nat :=
  List.length (filter p l).

(** [nulls[nulls > 0]]: only the bucket column can hold a missing cell
    in a cleaned frame. *)
Definition null_counts (df : CleanFrame) : list (string * nat) :=
  let n := count_true (fun c => match discount_bucket c with
                                | None => true
                                | Some _ => false
                                end) (rows df) in
  if (0 <? n)%nat then [("discount_bucket"%string, n)] else [].

Definition quality_report (df : CleanFrame) : QualityReport :=
  let rs := rows df in
  let neg := count_true (fun c => negb (Qle_bool 0 (profit (raw c)))) rs in
  {| total_records := List.length rs;
     total_columns := List.length (columns df);
     date_range := min_max_date (map (fun c => order_date (raw c)) rs);
     unique_orders := count_distinct (map (fun c => order_id (raw c)) rs);
     unique_customers :=
       count_distinct (map (fun c => customer_id (raw c)) rs);
     unique_products :=
       count_distinct (map (fun c => product_id (raw c)) rs);
     total_revenue := sum_real (map (fun c => sales (raw c)) rs);
     total_profit_sum := sum_real (map (fun c => profit (raw c)) rs);
     avg_margin := mean (map profit_margin_pct rs);
     null_columns := null_counts df;
     loss_making := neg;
     loss_pct :=
       match rs with
       | [] => None
       | _ => Some (inject_Z (Z.of_nat neg)
                    / inject_Z (Z.of_nat (List.length rs)) * 100)
       end |}.

Definition validate_data (r : ref) : M ref :=
  o <- deref r ;;
  match o with
  | OClean df => print (QualityReportLine (quality_report df)) ;;; ret r
  | _ => raise TypeError
  end.

(** *** [load_to_database] and [run_analysis_queries] *)

Definition write_database (t : list DbRow) : M unit :=
  fun w => (Ok tt,
            {| files := files w; heap := heap w; stdout := stdout w;
               database := Some t; exports := exports w |}).

Definition read_database : M (list DbRow) :=
  fun w =>
    match database w with
    | Some t => (Ok t, w)
    | None => (Raise OperationalError, w)
    end.

Definition write_exports (res : QueryResults) : M unit :=
  fun w => (Ok tt,
            {| files := files w; heap := heap w; stdout := stdout w;
               database := database w; exports := Some res |}).

Definition load_to_database (r : ref) (db_path : string) : M unit :=
  o <- deref r ;;
  match o with
  | OClean df =>
      let t := to_sql df in
      write_database t ;;;
      print (LoadedLine (List.length t) db_path)
  | _ => raise TypeError
  end.

Definition run_analysis_queries : M QueryResults :=
  t <- read_database ;;
  let res := {| res_top_products := top_products t;
                res_worst_products := worst_products t;
                res_discount_impact := discount_impact t;
                res_yoy_growth := yoy_growth t |} in
  write_exports res ;;;
  print (QueryLine "top_products" (List.length (top_products t))) ;;;
  print (QueryLine "worst_products" (List.length (worst_products t))) ;;;
  print (QueryLine "discount_impact" (List.length (discount_impact t))) ;;;
  print (QueryLine "yoy_growth" (List.length (yoy_growth t))) ;;;
  ret res.

(** *** [main.py] *)

Definition DATA_PATH : string := "../archive/Sample - Superstore.csv".
Definition DB_PATH : string := "output/retail_sales.db".

(** Steps 1 to 4 of the runner; charts, the PDF report and the closing
    summary consume these results and are left out. *)
Definition run_pipeline : M QueryResults :=
  print BannerLine ;;;
  print (StepLine 1) ;;;
  df <- extract_data DATA_PATH ;;
  print (StepLine 2) ;;;
  df <- clean_data df ;;
  print (StepLine 3) ;;;
  df <- validate_data df ;;
  print (StepLine 4) ;;;
  load_to_database df DB_PATH ;;;
  run_analysis_queries.

(** The [try] block of the script: any [Exception] is reported and the
    process exits with status 1; [SystemExit] passes through. *)
Definition main : M QueryResults :=
  fun w =>
    match run_pipeline w with
    | (Raise e, w') =>
        if is_Exception e
        then (print (PipelineErrorLine e) ;;; raise (SystemExit 1)) w'
        else (Raise e, w')
    | ok => ok
    end.

End Pipeline.
Export Pipeline.

(** * Properties *)

(** ** Rounding to two decimals *)



(** ** Rows of a cleaned frame *)

Lemma clean_frame_rows (df : RawFrame) (c : CleanRow) :
  In c (rows (clean_frame df)) ->
  c = derive (raw c) /\ In (raw c) (raw_rows df).
Proof.
  cbn. intros H. apply in_map_iff in H as (r & <- & Hr). cbn.
  split; [reflexivity|].
  eapply drop_duplicates_from_incl, Hr.
Qed.

(** The bucket table as the data model words it: label, open lower edge,
    closed upper edge. *)
Definition spec_buckets : list (string * (Q * Q)) :=
  [("No Discount", (- (1 # 100), 0));
   ("1-10%", (0, 1 # 10));
   ("11-20%", (1 # 10, 2 # 10));
   ("21-30%", (2 # 10, 3 # 10));
   ("30%+", (3 # 10, 1))]%string.

Lemma spec_buckets_code (d : Q) (i : nat) (l : string) (lo hi : Q) :
  nth_error spec_buckets i = Some (l, (lo, hi)) ->
  (lo < d /\ d <= hi <-> discount_code d = Some i) /\
  nth_error discount_labels i = Some l.
Proof.
  intros H.
  assert (E : (i < 5)%nat /\ (lo, hi) = (bin_lo i, bin_hi i) /\
              nth_error discount_labels i = Some l).
  { do 5 (destruct i as [|i]; [cbn in H; injection H as <- <- <-;
                               repeat split; lia|]).
    destruct i; discriminate. }
  destruct E as (Hi & [= -> ->] & El). split; [|exact El]. split.
  - now apply in_bin_discount_code.
  - intros Hc. now apply discount_code_in_bin in Hc.
Qed.

Lemma cut_discount_assigned (d : Q) :
  0 <= d -> d <= 1 ->
  exists i l lo hi,
    nth_error spec_buckets i = Some (l, (lo, hi)) /\
    cut_discount d = Some l /\ discount_code d = Some i /\
    lo < d /\ d <= hi.
Proof.
  intros H0 H1. destruct (discount_code d) as [i|] eqn:E.
  - destruct (discount_code_in_bin d i E) as [Hi Hb].
    destruct (nth_error spec_buckets i) as [[l [lo hi]]|] eqn:En.
    + destruct (spec_buckets_code d i l lo hi En) as [Hiff Hl].
      exists i, l, lo, hi. rewrite cut_discount_code, E.
      repeat split; try assumption; now apply Hiff.
    + apply nth_error_None in En. cbn in En. lia.
  - apply discount_code_none in E. lra.
Qed.

Lemma discount_code_mono (d1 d2 : Q) (i1 i2 : nat) :
  d1 <= d2 -> discount_code d1 = Some i1 -> discount_code d2 = Some i2 ->
  (i1 <= i2)%nat.
Proof.
  intros Hd. split_edges d1; intros [= <-]; split_edges d2; intros [= <-];
    try lia; exfalso; lra.
Qed.

Lemma cut_discount_none (d : Q) :
  cut_discount d = None <-> d <= - (1 # 100) \/ 1 < d.
Proof.
  rewrite <- discount_code_none, cut_discount_code.
  destruct (discount_code d) as [i|] eqn:E; [|tauto].
  apply discount_code_in_bin in E as [Hi _].
  split; [|discriminate]. intros H. apply nth_error_None in H.
  cbn in H. lia.
Qed.

Example bucket_edges :
  map cut_discount [0; 1 # 10; 15 # 100; 2 # 10; 3 # 10; 31 # 100; 1]
  = [Some "No Discount"; Some "1-10%"; Some "11-20%"; Some "11-20%";
     Some "21-30%"; Some "30%+"; Some "30%+"]%string.
Proof. reflexivity. Qed.

(** ** Sample data *)

Module Samples.

Definition superstore_header : list string :=
  ["Row ID"; "Order ID"; "Order Date"; "Ship Date"; "Ship Mode";
   "Customer ID"; "Customer Name"; "Segment"; "Country"; "City"; "State";
   "Postal Code"; "Region"; "Product ID"; "Category"; "Sub-Category";
   "Product Name"; "Sales"; "Quantity"; "Discount"; "Profit"]%string.

(** A row with the given product, order date and figures; the other
    columns hold fixed values. *)
Definition sample_row (id : Z) (product : string) (ordered : date)
           (s p : Q) (qty : Z) (d : Q) : RawRow :=
  {| row_id := id;
     order_id := ("CA-" ++ Z_to_string id)%string;
     order_date := ordered;
     ship_date := mkDate (year ordered) (month ordered) (day ordered + 3);
     ship_mode := "Second Class";
     customer_id := "CG-12520";
     customer_name := "Claire Gute";
     segment := "Consumer";
     country := "United States";
     city := "Henderson";
     state := "Kentucky";
     postal_code := Some 42420%Z;
     region := "South";
     product_id := ("P-" ++ product)%string;
     category := "Furniture";
     sub_category := "Chairs";
     product_name := product;
     sales := s;
     quantity := qty;
     discount := d;
     profit := p |}.

Definition nov8 : date := mkDate 2016 11 8.

(** The three rows of the end-to-end example. *)
Definition three_rows : RawFrame :=
  {| raw_columns := superstore_header;
     raw_rows :=
       [sample_row 1 "Chair" nov8 100 20 2 0;
        sample_row 2 "Table" nov8 0 0 1 (15 # 100);
        sample_row 3 "Shelf" nov8 50 (-10) 5 (25 # 100)] |}.

Definition stored (df : RawFrame) : list DbRow := to_sql (clean_frame df).

Example three_rows_header :
  firstn 4 (columns (clean_frame three_rows))
  = ["row_id"; "order_id"; "order_date"; "ship_date"]%string
  /\ List.length (columns (clean_frame three_rows)) = 30%nat.
Proof. split; reflexivity. Qed.

End Samples.

(** ** Discount buckets *)

(** Row [c] sits in the bucket at position [i] of the bucket table: it
    carries that label, its discount lies in that interval, and in no
    other. *)
Definition in_bucket (c : CleanRow) (i : nat) : Prop :=
  let d := discount (raw c) in
  exists l lo hi,
    nth_error spec_buckets i = Some (l, (lo, hi)) /\
    discount_bucket c = Some l /\ lo < d /\ d <= hi /\
    forall j l' lo' hi',
      nth_error spec_buckets j = Some (l', (lo', hi')) ->
      lo' < d -> d <= hi' -> j = i.

Lemma derive_in_bucket (r : RawRow) :
  0 <= discount r -> discount r <= 1 ->
  exists i, in_bucket (derive r) i /\ discount_code (discount r) = Some i.
Proof.
  intros H0 H1.
  destruct (cut_discount_assigned (discount r) H0 H1)
    as (i & l & lo & hi & Hn & Hc & Hi & Hlo & Hhi).
  exists i. split; [|exact Hi]. exists l, lo, hi. cbn.
  repeat split; try assumption.
  intros j l' lo' hi' Hj Hlo' Hhi'.
  destruct (spec_buckets_code (discount r) j l' lo' hi' Hj) as [Hiff _].
  assert (discount_code (discount r) = Some j) by (apply Hiff; auto).
  congruence.
Qed.

(** C1: for discounts in [0, 1] the bucket column of a cleaned frame
    carries exactly one of the five labels, the one whose half-open
    interval (-0.01, 0], (0, 0.1], (0.1, 0.2], (0.2, 0.3], (0.3, 1.0]
    holds the discount, and a larger discount never lands in an earlier
    bucket. *)
Theorem discount_bucket_assigned_monotone
        (df : RawFrame) (c1 c2 : CleanRow) :
  In c1 (rows (clean_frame df)) -> In c2 (rows (clean_frame df)) ->
  0 <= discount (raw c1) ->
  discount (raw c1) <= discount (raw c2) ->
  discount (raw c2) <= 1 ->
  exists i1 i2, in_bucket c1 i1 /\ in_bucket c2 i2 /\ (i1 <= i2)%nat.
Proof.
  intros Hc1 Hc2 H0 Hle H1.
  apply clean_frame_rows in Hc1 as [E1 _].
  apply clean_frame_rows in Hc2 as [E2 _].
  destruct (derive_in_bucket (raw c1)) as (i1 & B1 & C1); [lra | lra |].
  destruct (derive_in_bucket (raw c2)) as (i2 & B2 & C2); [lra | lra |].
  exists i1, i2. rewrite E1, E2.
  split; [exact B1 | split; [exact B2 |]].
  exact (discount_code_mono _ _ _ _ Hle C1 C2).
Qed.

Lemma discount_bucket_assigned_monotone_witness :
  exists i1 i2,
    in_bucket (derive (Samples.sample_row 2 "Table" Samples.nov8 0 0 1
                                          (15 # 100))) i1 /\
    in_bucket (derive (Samples.sample_row 3 "Shelf" Samples.nov8 50 (-10) 5
                                          (25 # 100))) i2 /\
    (i1 <= i2)%nat.
Proof.
  apply (discount_bucket_assigned_monotone Samples.three_rows).
  - vm_compute. right. left. reflexivity.
  - vm_compute. right. right. left. reflexivity.
  - cbn. unfold Qle. cbn. lia.
  - cbn. unfold Qle. cbn. lia.
  - cbn. unfold Qle. cbn. lia.
Defined.

(** C10: a discount outside (-0.01, 1.0] leaves the bucket of the cleaned
    row unassigned, and only such a discount does. *)
Theorem discount_bucket_unassigned (df : RawFrame) (c : CleanRow) :
  In c (rows (clean_frame df)) ->
  (discount_bucket c = None <->
   discount (raw c) <= - (1 # 100) \/ 1 < discount (raw c)).
Proof.
  intros Hc. apply clean_frame_rows in Hc as [E _].
  rewrite E at 1. cbn. apply cut_discount_none.
Qed.

Definition out_of_range : RawFrame :=
  {| raw_columns := Samples.superstore_header;
     raw_rows :=
       [Samples.sample_row 4 "Lamp" Samples.nov8 10 1 1 (3 # 2);
        Samples.sample_row 5 "Desk" Samples.nov8 10 1 1 (- (1 # 100))] |}.

Lemma discount_bucket_unassigned_witness :
  discount_bucket
    (derive (Samples.sample_row 4 "Lamp" Samples.nov8 10 1 1 (3 # 2)))
  = None.
Proof.
  refine (proj2 (discount_bucket_unassigned out_of_range _ _) _).
  - vm_compute. left. reflexivity.
  - right. cbn. unfold Qlt. cbn. lia.
Defined.

Example lowest_edge_unassigned :
  map discount_bucket (rows (clean_frame out_of_range)) = [None; None].
Proof. reflexivity. Qed.

(** ** Ratios with a zero guard *)



(** ** The end-to-end example *)

Definition loss_counts (t : list DbRow) : list (string * Z) :=
  map (fun r => (d_discount_bucket r, loss_count r)) (discount_impact t).

(** C2 as worded does not hold: the second row, with discount 0.15, is not
    labelled 1-10%. *)
Lemma three_rows_not_as_worded :
  ~ (Forall2 Qeq (map profit_margin_pct (rows (clean_frame Samples.three_rows)))
             [20; 0; - (20)] /\
     map discount_bucket (rows (clean_frame Samples.three_rows))
     = [Some "No Discount"; Some "1-10%"; Some "21-30%"]%string /\
     Sql.sum_int (map snd (loss_counts (Samples.stored Samples.three_rows)))
     = 1%Z).
Proof. intros (_ & H & _). vm_compute in H. discriminate H. Qed.

(** C2, amended: the three rows get margins 20.0, 0.0 and -20.0 and the
    labels No Discount, 11-20% and 21-30%; [discount_impact] has one row
    per label, and only the 21-30% row counts a loss, so the loss counts
    add up to 1. *)
Theorem three_rows_end_to_end :
  Forall2 Qeq (map profit_margin_pct (rows (clean_frame Samples.three_rows)))
          [20; 0; - (20)] /\
  map discount_bucket (rows (clean_frame Samples.three_rows))
  = [Some "No Discount"; Some "11-20%"; Some "21-30%"]%string /\
  loss_counts (Samples.stored Samples.three_rows)
  = [("11-20%", 0); ("21-30%", 1); ("No Discount", 0)]%string%Z /\
  Sql.sum_int (map snd (loss_counts (Samples.stored Samples.three_rows)))
  = 1%Z.
Proof.
  split; [|split; [|split]].
  - cbn. repeat constructor; reflexivity.
  - reflexivity.
  - vm_compute. reflexivity.
  - vm_compute. reflexivity.
Qed.

(** ** Column names *)

(** C7: normalising a header twice gives the same names as normalising it
    once, whatever the names. *)
Theorem normalize_columns_idempotent (cols : list string) :
  ColumnNames.normalize_columns (ColumnNames.normalize_columns cols)
  = ColumnNames.normalize_columns cols.
Proof.
  unfold ColumnNames.normalize_columns. rewrite map_map.
  apply map_ext. intros s. apply ColumnNames.normalize_name_idem.
Qed.

Example normalize_examples :
  ColumnNames.normalize_columns
    ["  Order Date "; "Sub-Category"; "Row ID"]%string
  = ["order_date"; "sub_category"; "row_id"]%string.
Proof. reflexivity. Qed.

(** ** Duplicate removal *)



(** A repeated row goes, a row that differs in one column stays. *)
Example near_duplicate_kept :
  let a := Samples.sample_row 1 "Chair" Samples.nov8 100 20 2 0 in
  let b := Samples.sample_row 1 "Chair" Samples.nov8 100 20 3 0 in
  drop_duplicates RawRow_eqb [a; b; a] = [a; b].
Proof. reflexivity. Qed.

(** ** Validation *)

(** C5: [validate_data] hands back the very frame it was given: the same
    reference, with the object store, and so every row, column and cell of
    the frame, as before; it only prints. *)
Theorem validate_data_pass_through (w : World) (r : ref) (df : CleanFrame) :
  nth r (heap w) ONone = OClean df ->
  exists w',
    validate_data r w = (Ok r, w') /\
    heap w' = heap w /\
    nth r (heap w') ONone = OClean df /\
    files w' = files w /\ database w' = database w /\
    exports w' = exports w /\
    stdout w' = stdout w ++ [QualityReportLine (quality_report df)].
Proof.
  intros H. eexists. split.
  - unfold validate_data, bind, deref. rewrite H. reflexivity.
  - cbn. auto 10.
Qed.

Definition validated_world : World :=
  {| files := fun _ => None;
     heap := [ORaw Samples.three_rows; OClean (clean_frame Samples.three_rows)];
     stdout := [];
     database := None;
     exports := None |}.

Lemma validate_data_pass_through_witness :
  exists w',
    validate_data 1%nat validated_world = (Ok 1%nat, w') /\
    heap w' = heap validated_world /\
    nth 1%nat (heap w') ONone = OClean (clean_frame Samples.three_rows) /\
    files w' = files validated_world /\
    database w' = database validated_world /\
    exports w' = exports validated_world /\
    stdout w' = stdout validated_world ++
                [QualityReportLine
                   (quality_report (clean_frame Samples.three_rows))].
Proof.
  apply (validate_data_pass_through validated_world 1%nat
           (clean_frame Samples.three_rows)).
  reflexivity.
Defined.

(** ** A missing input file *)

Definition empty_world : World :=
  {| files := fun _ => None; heap := []; stdout := [];
     database := None; exports := None |}.

(** C9 as worded does not hold: the failure is not a [FileNotFoundError]. *)
Lemma missing_file_not_FileNotFoundError :
  files empty_world "missing.csv" = None /\
  ~ exists p, fst (extract_data "missing.csv" empty_world)
              = Raise (FileNotFoundError p).
Proof. split; [reflexivity|]. intros (p & H). discriminate H. Qed.

(** C9, amended: for a path that does not exist [extract_data] prints the
    file-not-found line with the path and ends the run with [SystemExit]
    status 1; nothing is read or created.  With the configured data path
    missing, the runner stops there: the handler of [main] lets the exit
    through, and the object store, the database and the exported results
    are as before. *)
Theorem extract_data_missing_file (w : World) (path : string) :
  files w path = None ->
  extract_data path w
  = (Raise (SystemExit 1),
     with_stdout w (stdout w ++ [FileNotFoundLine path])) /\
  (path = DATA_PATH ->
   exists w',
     main w = (Raise (SystemExit 1), w') /\
     stdout w' = stdout w ++ [BannerLine; StepLine 1; FileNotFoundLine path] /\
     heap w' = heap w /\ database w' = database w /\
     exports w' = exports w /\ files w' = files w).
Proof.
  intros H. split.
  - unfold extract_data, bind, path_exists. rewrite H. reflexivity.
  - intros ->. eexists. split.
    + unfold main, run_pipeline, extract_data, bind, path_exists, print.
      cbn. rewrite H. cbn. reflexivity.
    + cbn. rewrite <- !app_assoc. auto.
Qed.

Lemma extract_data_missing_file_witness :
  extract_data DATA_PATH empty_world
  = (Raise (SystemExit 1),
     with_stdout empty_world [FileNotFoundLine DATA_PATH]) /\
  exists w',
    main empty_world = (Raise (SystemExit 1), w') /\
    stdout w' = [BannerLine; StepLine 1; FileNotFoundLine DATA_PATH] /\
    heap w' = [] /\ database w' = None /\ exports w' = None /\
    files w' = files empty_world.
Proof.
  destruct (extract_data_missing_file empty_world DATA_PATH eq_refl)
    as [H1 H2].
  split; [exact H1 | exact (H2 eq_refl)].
Defined.

(** ** Year-over-year growth *)

Definition year_revenue (t : list DbRow) (y : Z) : Q :=
  sql_round (sum_real (map db_sales (rows_of_year t y))) 2.

Definition year_profit (t : list DbRow) (y : Z) : Q :=
  sql_round (sum_real (map db_profit (rows_of_year t y))) 2.

Definition year_present (t : list DbRow) (y : Z) : Prop :=
  exists r, In r t /\ db_order_year r = y.

Lemma yearly_In (t : list DbRow) (a : YearRow) :
  In a (yearly t) <->
  year_present t (y_order_year a) /\
  a = year_row (y_order_year a, rows_of_year t (y_order_year a)).
Proof.
  unfold yearly. rewrite in_map_iff. split.
  - intros ([k g] & <- & H).
    apply (group_by_In Z.eqb Z.leb db_order_year Z.eqb_eq) in H
      as [-> Hk].
    cbn. split; [exact Hk | reflexivity].
  - intros [Hp E].
    exists (y_order_year a, rows_of_year t (y_order_year a)).
    split; [now symmetry|].
    apply (group_by_In Z.eqb Z.leb db_order_year Z.eqb_eq).
    split; [reflexivity | exact Hp].
Qed.

Lemma yearly_present (t : list DbRow) (y : Z) :
  year_present t y -> In (year_row (y, rows_of_year t y)) (yearly t).
Proof. intros H. apply yearly_In. cbn. auto. Qed.

Lemma yearly_NoDup (t : list DbRow) : NoDup (map y_order_year (yearly t)).
Proof.
  unfold yearly. rewrite map_map.
  rewrite (map_ext _ fst); [|intros [k g]; reflexivity].
  apply (group_by_NoDup Z.eqb Z.leb db_order_year Z.eqb_eq).
Qed.

Lemma growth_pct_null (cur : Q) : growth_pct cur None = None.
Proof. reflexivity. Qed.


(** A filter on a key without repetitions keeps at most one row. *)
Lemma filter_key_unique {A : Type} (f : A -> Z) (k : Z) (l : list A) :
  NoDup (map f l) ->
  (List.length (filter (fun x => (k =? f x)%Z) l) <= 1)%nat.
Proof.
  induction l as [|x l IH]; cbn; [lia|].
  intros H. apply NoDup_cons_iff in H as [Hx Hl].
  destruct (Z.eqb_spec k (f x)) as [->|]; [|auto]. cbn.
  assert (E : filter (fun y => (f x =? f y)%Z) l = []).
  { clear IH Hl. induction l as [|y l IH]; cbn; [reflexivity|].
    destruct (Z.eqb_spec (f x) (f y)) as [E|].
    - exfalso. apply Hx. cbn. now left.
    - apply IH. intros H. apply Hx. now right. }
  rewrite E. cbn. lia.
Qed.

Lemma left_join_single {A B : Type} (on : A -> B -> bool)
      (l : list A) (r : list B) :
  (forall a, (List.length (filter (on a) r) <= 1)%nat) ->
  map fst (left_join on l r) = l.
Proof.
  intros H. unfold left_join.
  induction l as [|a l IH]; [reflexivity|].
  cbn [flat_map]. rewrite map_app, IH. specialize (H a).
  destruct (filter (on a) r) as [|m [|m' ms]]; cbn in *;
    [reflexivity | reflexivity | lia].
Qed.

Lemma yoy_growth_years (t : list DbRow) :
  Permutation (map yoy_order_year (yoy_growth t))
              (map y_order_year (yearly t)).
Proof.
  unfold yoy_growth.
  rewrite (Permutation_map _ (order_by_perm _ _)).
  rewrite map_map.
  rewrite (map_ext _ (fun j => y_order_year (fst j)));
    [|intros [y p]; reflexivity].
  rewrite <- (map_map fst y_order_year).
  rewrite left_join_single; [reflexivity|].
  intros a.
  rewrite (filter_ext _ (fun p => (y_order_year a - 1 =? y_order_year p)%Z)).
  - apply filter_key_unique, yearly_NoDup.
  - intros p. apply eq_true_iff_eq. rewrite !Z.eqb_eq. lia.
Qed.

Lemma yoy_growth_In (t : list DbRow) (row : YoyRow) :
  In row (yoy_growth t) ->
  let y := yoy_order_year row in
  year_present t y /\
  revenue row = year_revenue t y /\
  yoy_profit row = year_profit t y /\
  ((~ year_present t (y - 1) /\
    revenue_growth_pct row = None /\ profit_growth_pct row = None)
   \/
   (year_present t (y - 1) /\
    revenue_growth_pct row
    = growth_pct (year_revenue t y) (Some (year_revenue t (y - 1))) /\
    profit_growth_pct row
    = growth_pct (year_profit t y) (Some (year_profit t (y - 1))))).
Proof.
  unfold yoy_growth. rewrite order_by_In, in_map_iff.
  intros ([a ob] & <- & H). apply left_join_In in H as [Ha Hob].
  apply yearly_In in Ha as [Hp Ea]. cbn [yoy_row yoy_order_year revenue
    yoy_profit revenue_growth_pct profit_growth_pct].
  set (y := y_order_year a) in *.
  assert (Er : y_revenue a = year_revenue t y) by (rewrite Ea; reflexivity).
  assert (Ep : y_profit a = year_profit t y) by (rewrite Ea; reflexivity).
  rewrite Er, Ep. repeat split; try assumption.
  destruct ob as [b|]; cbn [option_map].
  - right. destruct Hob as [Hb E]. apply Z.eqb_eq in E.
    apply yearly_In in Hb as [Hpb Eb].
    assert (Ey : y_order_year b = (y - 1)%Z) by lia.
    rewrite Ey in Hpb, Eb. split; [exact Hpb|].
    rewrite Eb. split; reflexivity.
  - left. split; [|split; reflexivity].
    intros Hprev. apply yearly_present in Hprev.
    specialize (Hob _ Hprev). cbn in Hob.
    apply Z.eqb_neq in Hob. lia.
Qed.




Definition three_years : list DbRow :=
  Samples.stored
    {| raw_columns := Samples.superstore_header;
       raw_rows :=
         [Samples.sample_row 1 "Chair" (mkDate 2014 3 1) 200 10 1 0;
          Samples.sample_row 2 "Table" (mkDate 2016 5 9) 100 20 1 0;
          Samples.sample_row 3 "Shelf" (mkDate 2017 7 4) 150 (-5) 1 0] |}.

Example three_years_growth :
  map (fun r => (yoy_order_year r, revenue_growth_pct r))
      (yoy_growth three_years)
  = [(2014%Z, None); (2016%Z, None);
     (2017%Z, Some (sql_round ((150 - 100) / 100 * 100) 2))]
  /\ sql_round ((150 - 100) / 100 * 100) 2 == 50.
Proof. split; vm_compute; reflexivity. Qed.


(** ** Best and worst products *)

Definition product_count (t : list DbRow) : nat :=
  List.length (distinct_keys product_key_eqb product_key_of t).

(** No two product groups share a rounded total profit. *)
Definition no_profit_ties (l : list ProductRow) : Prop :=
  forall a b, In a l -> In b l -> total_profit a == total_profit b -> a = b.

Lemma product_key_eqb_eq (a b : product_key) :
  product_key_eqb a b = true <-> a = b.
Proof.
  destruct a as [[a1 a2] a3], b as [[b1 b2] b3]. cbn.
  rewrite !andb_true_iff, !String.eqb_eq. split.
  - intros [[-> ->] ->]. reflexivity.
  - intros [= -> -> ->]. auto.
Qed.

Lemma product_groups_length (t : list DbRow) :
  List.length (product_groups t) = product_count t.
Proof.
  unfold product_groups, group_by, product_count.
  now rewrite !length_map, order_by_length.
Qed.

Lemma product_groups_NoDup (t : list DbRow) : NoDup (product_groups t).
Proof.
  apply (NoDup_map_inv
           (fun p => (p_product_name p, p_category p, p_sub_category p))).
  unfold product_groups. rewrite map_map.
  rewrite (map_ext _ fst); [|intros [[[n c] s] rs]; reflexivity].
  apply (group_by_NoDup _ _ _ product_key_eqb_eq).
Qed.

Lemma profit_asc_total (a b : ProductRow) :
  profit_asc a b = true \/ profit_asc b a = true.
Proof.
  unfold profit_asc. rewrite !Qle_bool_iff.
  destruct (Qlt_le_dec (total_profit b) (total_profit a));
    [right; now apply Qlt_le_weak | now left].
Qed.

Lemma profit_asc_trans (a b c : ProductRow) :
  profit_asc a b = true -> profit_asc b c = true -> profit_asc a c = true.
Proof. unfold profit_asc. rewrite !Qle_bool_iff. apply Qle_trans. Qed.

Lemma profit_desc_total (a b : ProductRow) :
  profit_desc a b = true \/ profit_desc b a = true.
Proof. destruct (profit_asc_total a b); [now right | now left]. Qed.

Lemma profit_desc_trans (a b c : ProductRow) :
  profit_desc a b = true -> profit_desc b c = true -> profit_desc a c = true.
Proof. intros H1 H2. exact (profit_asc_trans c b a H2 H1). Qed.

Definition profit_lt (a b : ProductRow) : Prop :=
  total_profit a < total_profit b.

(** Without ties, ascending order is strict. *)
Lemma profit_sorted_strict (l : list ProductRow) :
  NoDup l -> no_profit_ties l ->
  StronglySorted (fun a b => profit_asc a b = true) l ->
  StronglySorted profit_lt l.
Proof.
  intros Hnd Hties Hs.
  induction Hs as [|a l Hs IH Ha]; [constructor|].
  apply NoDup_cons_iff in Hnd as [Hnotin Hnd].
  constructor.
  - apply IH; [exact Hnd|].
    intros x y Hx Hy. apply Hties; now right.
  - rewrite Forall_forall in *. intros b Hb.
    specialize (Ha b Hb). unfold profit_asc in Ha.
    apply Qle_bool_iff, Qle_lt_or_eq in Ha as [Hlt|Heq]; [exact Hlt|].
    exfalso. apply Hnotin.
    rewrite (Hties a b (or_introl eq_refl) (or_intror Hb) Heq). exact Hb.
Qed.

Lemma order_asc_rev_desc (l : list ProductRow) :
  NoDup l -> no_profit_ties l ->
  order_by profit_asc l = rev (order_by profit_desc l).
Proof.
  intros Hnd Hties.
  assert (Pa : Permutation (order_by profit_asc l) l)
    by apply order_by_perm.
  assert (Pd : Permutation (rev (order_by profit_desc l)) l)
    by (rewrite <- Permutation_rev; apply order_by_perm).
  assert (transfer : forall l', Permutation l' l ->
                                NoDup l' /\ no_profit_ties l').
  { intros l' P. split.
    - eapply Permutation_NoDup; [symmetry; exact P | exact Hnd].
    - intros a b Ha Hb. apply Hties; eapply Permutation_in; eauto. }
  apply (sorted_perm_unique profit_lt).
  - intros a. apply Qlt_irrefl.
  - intros a b c. apply Qlt_trans.
  - destruct (transfer _ Pa). apply profit_sorted_strict; try assumption.
    apply order_by_sorted; [apply profit_asc_total | apply profit_asc_trans].
  - destruct (transfer _ Pd). apply profit_sorted_strict; try assumption.
    apply (StronglySorted_rev (fun a b => profit_desc a b = true)).
    apply order_by_sorted;
      [apply profit_desc_total | apply profit_desc_trans].
  - now rewrite Pa, Pd.
Qed.

Lemma limit_all {A : Type} (n : nat) (l : list A) :
  (List.length l <= n)%nat -> limit n l = l.
Proof. apply firstn_all2. Qed.

(** Two products with the same total profit. *)
Definition tied_products : list DbRow :=
  Samples.stored
    {| raw_columns := Samples.superstore_header;
       raw_rows :=
         [Samples.sample_row 1 "Chair" Samples.nov8 100 20 1 0;
          Samples.sample_row 2 "Table" Samples.nov8 80 20 1 0] |}.

(** C6 as worded does not hold: with a tie on total profit both queries
    list the tied products in the same order. *)
Lemma tied_products_not_reversed :
  (product_count tied_products <= 15)%nat /\
  top_products tied_products = worst_products tied_products /\
  top_products tied_products <> rev (worst_products tied_products).
Proof.
  split; [vm_compute; lia|]. split; [reflexivity|].
  vm_compute. discriminate.
Qed.

(** Thirty products with total profits 1 to 30. *)
Definition numbered_product (n : nat) : RawRow :=
  Samples.sample_row (Z.of_nat n)
    (String (ascii_of_nat (64 + n)) EmptyString) Samples.nov8
    100 (inject_Z (Z.of_nat n)) 1 0.

Definition thirty_products : list DbRow :=
  Samples.stored
    {| raw_columns := Samples.superstore_header;
       raw_rows := map numbered_product (seq 1 30) |}.

(** C6, amended: with at most 15 product groups the two results hold the
    same rows, and when no two groups tie on total profit they are each
    other's reverse; some table with more than 15 groups has results
    without a common row. *)
Theorem top_worst_products_reversed :
  (forall t,
      (product_count t <= 15)%nat ->
      Permutation (top_products t) (worst_products t) /\
      (no_profit_ties (product_groups t) ->
       top_products t = rev (worst_products t))) /\
  exists t,
    (15 < product_count t)%nat /\
    forall p, In p (top_products t) -> ~ In p (worst_products t).
Proof.
  split.
  - intros t Hn. rewrite <- product_groups_length in Hn.
    unfold top_products, worst_products.
    rewrite !limit_all by now rewrite order_by_length.
    split.
    + now rewrite !order_by_perm.
    + intros Hties.
      rewrite (order_asc_rev_desc _ (product_groups_NoDup t) Hties).
      now rewrite rev_involutive.
  - exists thirty_products. split; [vm_compute; lia|].
    assert (Htop : forallb (fun p => Qle_bool 16 (total_profit p))
                           (top_products thirty_products) = true)
      by (vm_compute; reflexivity).
    assert (Hworst : forallb (fun p => Qle_bool (total_profit p) 15)
                             (worst_products thirty_products) = true)
      by (vm_compute; reflexivity).
    rewrite forallb_forall in Htop, Hworst.
    intros p Hp Hq. specialize (Htop p Hp). specialize (Hworst p Hq).
    apply Qle_bool_iff in Htop, Hworst. lra.
Qed.

Lemma top_worst_products_reversed_witness :
  Permutation (top_products (Samples.stored Samples.three_rows))
              (worst_products (Samples.stored Samples.three_rows)) /\
  top_products (Samples.stored Samples.three_rows)
  = rev (worst_products (Samples.stored Samples.three_rows)).
Proof.
  destruct (proj1 top_worst_products_reversed
                  (Samples.stored Samples.three_rows)) as [HP Hrev].
  - vm_compute. lia.
  - split; [exact HP|]. apply Hrev.
    intros a b Ha Hb. vm_compute in Ha, Hb.
    destruct Ha as [<-|[<-|[<-|[]]]], Hb as [<-|[<-|[<-|[]]]];
      intros H; try reflexivity; vm_compute in H; discriminate H.
Defined.

Example three_rows_ranking :
  map p_product_name (top_products (Samples.stored Samples.three_rows))
  = ["Chair"; "Table"; "Shelf"]%string /\
  map p_product_name (worst_products (Samples.stored Samples.three_rows))
  = ["Shelf"; "Table"; "Chair"]%string.
Proof. split; reflexivity. Qed.

(** * Further properties of the cleaning stage *)

(** ** What a normalised column name looks like *)

Module NormalForm.

Import ColumnNames.

(** A character that can occur in a normalised name: not a space, not a
    hyphen, and unchanged by [str.lower]. *)
Definition plain_char (c : ascii) : Prop :=
  c <> " "%char /\ c <> "-"%char /\ lower_char c = c.

Lemma norm_char_plain (c : ascii) : plain_char (norm_char c).
Proof.
  unfold plain_char.
  destruct c as [[] [] [] [] [] [] [] []]; vm_compute;
    repeat split; discriminate.
Qed.

Lemma normalize_chars_plain (l : list ascii) :
  Forall plain_char (normalize_chars l) /\
  head_ok (normalize_chars l) /\ head_ok (rev (normalize_chars l)).
Proof.
  rewrite normalize_chars_fused. split; [|split].
  - apply Forall_forall. intros c Hc.
    apply in_map_iff in Hc as (c' & <- & _). apply norm_char_plain.
  - apply map_norm_head_ok, strip_head_ok.
  - rewrite <- map_rev. apply map_norm_head_ok, strip_last_ok.
Qed.

End NormalForm.

(** Every name of a normalised header is free of spaces, hyphens and
    capital letters, and neither starts nor ends with whitespace. *)
Theorem normalize_columns_shape (cols : list string) (s : string) :
  In s (ColumnNames.normalize_columns cols) ->
  let cs := list_ascii_of_string s in
  Forall NormalForm.plain_char cs /\
  ColumnNames.head_ok cs /\ ColumnNames.head_ok (rev cs).
Proof.
  intros H. apply in_map_iff in H as (s0 & <- & _).
  unfold ColumnNames.normalize_name. cbv zeta.
  rewrite list_ascii_of_string_of_list_ascii.
  apply NormalForm.normalize_chars_plain.
Qed.

Lemma normalize_columns_shape_witness :
  let cs := list_ascii_of_string "sub_category" in
  Forall NormalForm.plain_char cs /\
  ColumnNames.head_ok cs /\ ColumnNames.head_ok (rev cs).
Proof.
  apply (normalize_columns_shape ["  Sub-Category "%string]).
  left. reflexivity.
Defined.

(** ** The header of a cleaned frame *)

(** Columns [clean_data] reads from the normalised frame. *)
Definition required_columns : list string :=
  ["order_date"; "ship_date"; "postal_code"; "quantity"; "discount";
   "sales"; "profit"]%string.

(** Columns [clean_data] creates. *)
Definition new_columns : list string :=
  ["delivery_days"; "profit_margin_pct"; "revenue_per_unit"; "order_year";
   "order_month"; "order_quarter"; "order_day_of_week"; "is_profitable";
   "discount_bucket"]%string.

Lemma assign_column_present (n : string) (cols : list string) :
  In n cols -> assign_column n cols = cols.
Proof.
  intros H. unfold assign_column.
  assert (E : existsb (String.eqb n) cols = true).
  { apply existsb_exists. exists n. split; [exact H | apply String.eqb_refl]. }
  now rewrite E.
Qed.

Lemma assign_column_absent (n : string) (cols : list string) :
  ~ In n cols -> assign_column n cols = cols ++ [n].
Proof.
  intros H. unfold assign_column.
  destruct (existsb (String.eqb n) cols) eqn:E; [|reflexivity].
  apply existsb_exists in E as (m & Hm & E). apply String.eqb_eq in E.
  subst. contradiction.
Qed.

(** When the normalised header holds the columns the cleaning reads and
    none of the derived names, the cleaned header is the normalised one
    followed by the nine derived columns, in the order they are assigned. *)
Theorem clean_frame_header (df : RawFrame) :
  incl required_columns (ColumnNames.normalize_columns (raw_columns df)) ->
  (forall n, In n new_columns ->
             ~ In n (ColumnNames.normalize_columns (raw_columns df))) ->
  columns (clean_frame df)
  = ColumnNames.normalize_columns (raw_columns df) ++ new_columns.
Proof.
  intros Hreq Hnew. unfold clean_frame. cbn [columns].
  set (cols := ColumnNames.normalize_columns (raw_columns df)) in *.
  unfold derived_columns. cbn [fold_left].
  assert (Hin : forall n, In n required_columns -> In n cols)
    by exact Hreq.
  assert (Hout : forall n extra,
             In n new_columns -> ~ In n extra -> ~ In n (cols ++ extra)).
  { intros n extra Hn He H. apply in_app_iff in H as [H|H];
      [exact (Hnew n Hn H) | exact (He H)]. }
  repeat match goal with
  | |- context [assign_column ?n cols] =>
      rewrite (assign_column_present n cols)
        by (apply Hin; unfold required_columns; cbn; tauto)
  end.
  rewrite (assign_column_absent _ cols)
    by (apply Hnew; unfold new_columns; cbn; tauto).
  repeat match goal with
  | |- context [assign_column ?n (cols ++ ?extra)] =>
      rewrite (assign_column_absent n (cols ++ extra))
        by (apply Hout; [unfold new_columns; cbn; tauto
                        |cbn; intuition discriminate]);
      rewrite <- app_assoc; cbn [app]
  end.
  reflexivity.
Qed.

Lemma clean_frame_header_witness :
  columns (clean_frame Samples.three_rows)
  = ColumnNames.normalize_columns Samples.superstore_header ++ new_columns.
Proof.
  apply (clean_frame_header Samples.three_rows).
  - intros n Hn. vm_compute in Hn. vm_compute. tauto.
  - intros n Hn H. vm_compute in Hn, H.
    repeat (destruct Hn as [<-|Hn]; [intuition discriminate|]).
    exact Hn.
Defined.

(** ** Rows of a cleaned frame, again *)


(** ** [clean_data] allocates, it does not overwrite *)





(** ** Margin and profitability flag *)

Lemma rint_sign (q : Q) :
  (0 <= q -> (0 <= rint q)%Z) /\ (q <= 0 -> (rint q <= 0)%Z).
Proof.
  unfold rint.
  pose proof (Qfloor_le q) as Hlo. pose proof (Qlt_floor q) as Hhi.
  rewrite inject_Z_plus in Hhi. change (inject_Z 1) with 1 in Hhi.
  split; intros H.
  - assert (0 <= Qfloor q)%Z.
    { apply Z.lt_succ_r. rewrite Zlt_Qlt. unfold Z.succ.
      rewrite inject_Z_plus. change (inject_Z 1) with 1.
      change (inject_Z 0) with 0. lra. }
    destruct (Qcompare _ _); [destruct (Z.even _)| |]; lia.
  - assert (Hf : (Qfloor q <= 0)%Z).
    { rewrite Zle_Qle. change (inject_Z 0) with 0. lra. }
    destruct (Qcompare (q - inject_Z (Qfloor q)) (1 # 2)) eqn:E.
    + apply Qeq_alt in E.
      assert (Qfloor q <> 0)%Z.
      { intros E0. rewrite E0 in E. change (inject_Z 0) with 0 in E. lra. }
      destruct (Z.even _); lia.
    + exact Hf.
    + apply Qgt_alt in E.
      assert (Qfloor q <> 0)%Z.
      { intros E0. rewrite E0 in E. change (inject_Z 0) with 0 in E. lra. }
      lia.
Qed.

Lemma np_round2_sign (q : Q) :
  (0 <= q -> 0 <= np_round2 q) /\ (q <= 0 -> np_round2 q <= 0).
Proof.
  unfold np_round2, Qdiv. change (/ 100) with (1 # 100).
  destruct (rint_sign (q * 100)) as [Hp Hn].
  split; intros H.
  - assert (0 <= rint (q * 100))%Z by (apply Hp; lra).
    assert (0 <= inject_Z (rint (q * 100)))
      by (change 0 with (inject_Z 0); now rewrite <- Zle_Qle).
    lra.
  - assert (rint (q * 100) <= 0)%Z by (apply Hn; lra).
    assert (inject_Z (rint (q * 100)) <= 0)
      by (change 0 with (inject_Z 0); now rewrite <- Zle_Qle).
    lra.
Qed.

(** With positive sales the margin never contradicts the profit: a row
    flagged profitable has a margin of at least 0, a loss-making row a
    margin of at most 0. *)
Theorem margin_sign_follows_profit (df : RawFrame) (c : CleanRow) :
  In c (rows (clean_frame df)) ->
  0 < sales (raw c) ->
  (is_profitable c = true -> 0 <= profit_margin_pct c) /\
  (profit (raw c) <= 0 -> is_profitable c = false /\
                          profit_margin_pct c <= 0).
Proof.
  intros Hc Hs. apply clean_frame_rows in Hc as [E _].
  rewrite E. cbn [is_profitable profit_margin_pct derive raw].
  set (r := raw c) in *. unfold margin_pct.
  assert (Es : Qeq_bool (sales r) 0 = false).
  { apply not_true_iff_false. rewrite Qeq_bool_iff. lra. }
  rewrite Es.
  assert (Hinv : 0 < / sales r) by now apply Qinv_lt_0_compat.
  unfold Qdiv. split.
  - intros Hp. apply negb_true_iff, not_true_iff_false in Hp.
    rewrite Qle_bool_iff in Hp. apply Qnot_le_lt in Hp.
    apply np_round2_sign.
    assert (0 <= profit r * / sales r)
      by (apply Qmult_le_0_compat; lra).
    lra.
  - intros Hp. split.
    + apply negb_false_iff, Qle_bool_iff, Hp.
    + apply np_round2_sign.
      assert (0 <= (- profit r) * / sales r)
        by (apply Qmult_le_0_compat; lra).
      lra.
Qed.

Lemma margin_sign_follows_profit_witness :
  let c := derive (Samples.sample_row 3 "Shelf" Samples.nov8 50 (-10) 5
                                      (25 # 100)) in
  is_profitable c = false /\ profit_margin_pct c <= 0.
Proof.
  intros c.
  assert (Hin : In c (rows (clean_frame Samples.three_rows)))
    by (vm_compute; right; right; left; reflexivity).
  refine (proj2 (margin_sign_follows_profit Samples.three_rows c Hin _) _).
  - cbn. unfold Qlt. cbn. lia.
  - cbn. unfold Qle. cbn. lia.
Defined.

From Stdlib Require Import OrdersEx.

(** * Dates and delivery time *)

Module Calendar.

Local Open Scope Z_scope.

(** [lia] with division and remainder by literals. *)
Ltac div_lia := Z.to_euclidean_division_equations; lia.

Definition is_leap (y : Z) : bool :=
  ((y mod 4 =? 0) && negb (y mod 100 =? 0)) || (y mod 400 =? 0).

Definition days_in_month (y m : Z) : Z :=
  if m =? 2 then (if is_leap y then 29 else 28)
  else if (m =? 4) || (m =? 6) || (m =? 9) || (m =? 11) then 30
  else 31.

(** A date of the Gregorian calendar. *)
Definition valid_date (d : date) : Prop :=
  1 <= month d <= 12 /\ 1 <= day d <= days_in_month (year d) (month d).

(** Calendar order. *)
Definition date_lt (a b : date) : Prop :=
  year a < year b \/
  (year a = year b /\
   (month a < month b \/ (month a = month b /\ day a < day b))).

(** The year counted from 1 March, and the day within it. *)
Definition shifted_year (d : date) : Z :=
  if month d <=? 2 then year d - 1 else year d.

Definition day_of_year (d : date) : Z :=
  (153 * ((month d + 9) mod 12) + 2) / 5 + day d - 1.

Definition year_start (y : Z) : Z := 365 * y + y / 4 - y / 100 + y / 400.

Definition leap_extra (y : Z) : Z := if is_leap y then 1 else 0.

Lemma days_from_civil_flat (d : date) :
  days_from_civil d
  = year_start (shifted_year d) + day_of_year d - 719468.
Proof.
  unfold days_from_civil, year_start, shifted_year, day_of_year.
  cbv zeta. destruct (month d <=? 2); div_lia.
Qed.

Lemma year_start_step (y : Z) :
  year_start (y + 1) = year_start y + 365 + leap_extra (y + 1).
Proof.
  unfold year_start, leap_extra, is_leap.
  destruct ((y + 1) mod 4 =? 0) eqn:E4;
    destruct ((y + 1) mod 100 =? 0) eqn:E100;
    destruct ((y + 1) mod 400 =? 0) eqn:E400; cbn [andb orb negb];
    rewrite ?Z.eqb_eq, ?Z.eqb_neq in *; div_lia.
Qed.

Lemma leap_extra_range (y : Z) : 0 <= leap_extra y <= 1.
Proof. unfold leap_extra. destruct (is_leap y); lia. Qed.

Lemma year_start_mono (y1 y2 : Z) :
  y1 <= y2 -> year_start y1 <= year_start y2.
Proof.
  intros H. replace y2 with (y1 + Z.of_nat (Z.to_nat (y2 - y1))) by lia.
  induction (Z.to_nat (y2 - y1)) as [|n IH].
  - rewrite Z.add_0_r. lia.
  - replace (y1 + Z.of_nat (S n)) with (y1 + Z.of_nat n + 1) by lia.
    rewrite year_start_step.
    pose proof (leap_extra_range (y1 + Z.of_nat n + 1)). lia.
Qed.

Ltac eval_tests :=
  cbn [Z.eqb Z.leb Z.compare Pos.eqb Pos.compare Pos.compare_cont
       orb andb negb] in *.

Ltac month_cases m H :=
  assert (m = 1 \/ m = 2 \/ m = 3 \/ m = 4 \/ m = 5 \/ m = 6 \/ m = 7 \/
          m = 8 \/ m = 9 \/ m = 10 \/ m = 11 \/ m = 12) as H by lia;
  repeat destruct H as [H|H].

Lemma day_of_year_bound (d : date) :
  valid_date d ->
  0 <= day_of_year d <= 364 + leap_extra (shifted_year d + 1).
Proof.
  destruct d as [y m dd].
  unfold valid_date, day_of_year, shifted_year, days_in_month.
  cbn [year month day].
  intros [Hm Hd]. month_cases m Hc; subst m; eval_tests;
    try (match goal with
         | |- context [leap_extra ?x] => pose proof (leap_extra_range x)
         end; div_lia).
  replace (y - 1 + 1) with y by lia.
  unfold leap_extra. destruct (is_leap y); div_lia.
Qed.

Lemma shifted_year_mono (a b : date) :
  date_lt a b -> shifted_year a <= shifted_year b.
Proof.
  unfold date_lt, shifted_year.
  destruct (Z.leb_spec (month a) 2), (Z.leb_spec (month b) 2); lia.
Qed.

Lemma day_of_year_mono (a b : date) :
  valid_date a -> valid_date b -> date_lt a b ->
  shifted_year a = shifted_year b -> day_of_year a < day_of_year b.
Proof.
  destruct a as [y1 m1 d1], b as [y2 m2 d2].
  unfold valid_date, date_lt, shifted_year, day_of_year, days_in_month.
  cbn [year month day]. intros [Hm1 Hd1] [Hm2 Hd2] Hlt.
  month_cases m1 Hc1; subst m1; month_cases m2 Hc2; subst m2;
    eval_tests; intros Hy; try lia; try div_lia;
    try (destruct (is_leap y1); div_lia);
    try (destruct (is_leap y2); div_lia).
Qed.

(** The day number grows with the calendar. *)
Lemma days_from_civil_lt (a b : date) :
  valid_date a -> valid_date b -> date_lt a b ->
  days_from_civil a < days_from_civil b.
Proof.
  intros Ha Hb Hlt. rewrite !days_from_civil_flat.
  pose proof (shifted_year_mono a b Hlt) as Hy.
  pose proof (day_of_year_bound a Ha) as Ba.
  pose proof (day_of_year_bound b Hb) as Bb.
  destruct (Z.eq_dec (shifted_year a) (shifted_year b)) as [E|N].
  - pose proof (day_of_year_mono a b Ha Hb Hlt E). rewrite E. lia.
  - pose proof (year_start_step (shifted_year a)) as Hs.
    pose proof (year_start_mono (shifted_year a + 1) (shifted_year b)).
    lia.
Qed.

Lemma date_trichotomy (a b : date) : date_lt a b \/ a = b \/ date_lt b a.
Proof.
  destruct a as [y1 m1 d1], b as [y2 m2 d2]. unfold date_lt. cbn.
  destruct (Z.lt_trichotomy y1 y2) as [|[->|]]; [lia| |lia].
  destruct (Z.lt_trichotomy m1 m2) as [|[->|]]; [lia| |lia].
  destruct (Z.lt_trichotomy d1 d2) as [|[->|]]; [lia| |lia].
  right. left. reflexivity.
Qed.

Lemma days_from_civil_order (a b : date) :
  valid_date a -> valid_date b ->
  (days_from_civil a < days_from_civil b <-> date_lt a b) /\
  (days_from_civil a = days_from_civil b <-> a = b).
Proof.
  intros Ha Hb.
  destruct (date_trichotomy a b) as [H|[->|H]].
  - pose proof (days_from_civil_lt a b Ha Hb H). split; split; try lia.
    + intros _. exact H.
    + intros ->. lia.
  - split; split; try lia; try reflexivity.
    intros H. exfalso. unfold date_lt in H. lia.
  - pose proof (days_from_civil_lt b a Hb Ha H). split; split; try lia.
    + intros H'. exfalso. unfold date_lt in *. lia.
    + intros ->. lia.
Qed.

End Calendar.

(** The delivery time of a cleaned row is negative exactly when the ship
    date comes before the order date, and zero exactly when the two dates
    are the same; it is not clamped. *)
Theorem delivery_days_sign (df : RawFrame) (c : CleanRow) :
  In c (rows (clean_frame df)) ->
  Calendar.valid_date (order_date (raw c)) ->
  Calendar.valid_date (ship_date (raw c)) ->
  ((delivery_days c < 0)%Z <->
   Calendar.date_lt (ship_date (raw c)) (order_date (raw c))) /\
  (delivery_days c = 0%Z <-> ship_date (raw c) = order_date (raw c)).
Proof.
  intros Hc Ho Hs. apply clean_frame_rows in Hc as [E _].
  rewrite E. cbn [delivery_days derive raw].
  destruct (Calendar.days_from_civil_order _ _ Hs Ho) as [Hlt Heq].
  split.
  - rewrite <- Hlt. lia.
  - rewrite <- Heq. lia.
Qed.

Definition late_order : RawFrame :=
  {| raw_columns := Samples.superstore_header;
     raw_rows :=
       [mkRaw 1 "CA-1" (mkDate 2017 1 2) (mkDate 2016 12 30) "Same Day"
              "CG-12520" "Claire Gute" "Consumer" "United States"
              "Henderson" "Kentucky" None "South" "P-1" "Furniture"
              "Chairs" "Chair" 100 20 2 0] |}.

Lemma delivery_days_sign_witness :
  (delivery_days (nth 0 (rows (clean_frame late_order))
                      (derive (Samples.sample_row 0 "" Samples.nov8
                                                  0 0 0 0))) < 0)%Z.
Proof.
  refine (proj2 (proj1 (delivery_days_sign late_order _ _ _ _)) _).
  - vm_compute. left. reflexivity.
  - vm_compute. intuition discriminate.
  - vm_compute. intuition discriminate.
  - left. vm_compute. reflexivity.
Defined.

Example negative_delivery :
  map delivery_days (rows (clean_frame late_order)) = [(-3)%Z].
Proof. reflexivity. Qed.

(** For an order date with a month from 1 to 12 the quarter lies between
    1 and 4 and is the one holding the month; the weekday name is one of
    the seven English names, for any date. *)
Theorem order_quarter_and_weekday (df : RawFrame) (c : CleanRow) :
  In c (rows (clean_frame df)) ->
  (1 <= month (order_date (raw c)) <= 12)%Z ->
  (1 <= order_quarter c <= 4)%Z /\
  (3 * order_quarter c - 2 <= order_month c <= 3 * order_quarter c)%Z /\
  In (order_day_of_week c) day_names.
Proof.
  intros Hc Hm. apply clean_frame_rows in Hc as [E _].
  rewrite E. cbn [order_quarter order_month order_day_of_week derive raw].
  unfold quarter, day_name.
  split; [|split]; try (Z.to_euclidean_division_equations; lia).
  apply nth_In. cbn [List.length day_names].
  pose proof (Z.mod_pos_bound
                (days_from_civil (order_date (raw c)) + 3) 7 eq_refl).
  lia.
Qed.

Lemma order_quarter_and_weekday_witness :
  let c := derive (Samples.sample_row 1 "Chair" Samples.nov8 100 20 2 0) in
  (1 <= order_quarter c <= 4)%Z /\
  (3 * order_quarter c - 2 <= order_month c <= 3 * order_quarter c)%Z /\
  In (order_day_of_week c) day_names.
Proof.
  intros c.
  apply (order_quarter_and_weekday Samples.three_rows c).
  - vm_compute. left. reflexivity.
  - cbn. lia.
Defined.

(** * Further properties of the storage and query stage *)

(** ** Loading replaces the table *)

(** [load_to_database] stores one row per row of the frame, whatever the
    database held before, leaves the frame and the exports alone, and
    loading the same frame again leaves the same table. *)
Theorem load_to_database_replaces
        (w : World) (r : ref) (df : CleanFrame) (db_path : string) :
  nth r (heap w) ONone = OClean df ->
  exists w',
    load_to_database r db_path w = (Ok tt, w') /\
    database w' = Some (to_sql df) /\
    List.length (to_sql df) = List.length (rows df) /\
    map rec (to_sql df) = rows df /\
    heap w' = heap w /\ files w' = files w /\ exports w' = exports w /\
    stdout w' = stdout w ++ [LoadedLine (List.length (rows df)) db_path] /\
    exists w'',
      load_to_database r db_path w' = (Ok tt, w'') /\
      database w'' = database w' /\ heap w'' = heap w.
Proof.
  intros H.
  assert (El : List.length (to_sql df) = List.length (rows df))
    by apply length_map.
  assert (Em : map rec (to_sql df) = rows df).
  { unfold to_sql. rewrite map_map. cbn. apply map_id. }
  unfold load_to_database, bind, deref. rewrite H. cbn.
  eexists. split; [reflexivity|]. cbn. rewrite H, El.
  repeat split; try assumption.
  eexists. split; [reflexivity|]. cbn. auto.
Qed.

Lemma load_to_database_replaces_witness :
  exists w',
    load_to_database 1%nat "output/retail_sales.db" validated_world
    = (Ok tt, w') /\
    database w' = Some (to_sql (clean_frame Samples.three_rows)).
Proof.
  destruct (load_to_database_replaces validated_world 1%nat
              (clean_frame Samples.three_rows) "output/retail_sales.db"
              eq_refl) as (w' & H1 & H2 & _).
  exists w'. split; [exact H1 | exact H2].
Defined.

(** ** Order on text *)

Module TextOrder.

Definition string_lt (a b : string) : Prop := String.compare a b = Lt.

Lemma compare_OT (a b : string) :
  String.compare a b = String_as_OT.compare a b.
Proof.
  revert b. induction a as [|x a IH]; intros [|y b]; reflexivity.
Qed.


Lemma string_lt_trans (a b c : string) :
  string_lt a b -> string_lt b c -> string_lt a c.
Proof.
  unfold string_lt. rewrite !compare_OT.
  apply (StrictOrder_Transitive (R := String_as_OT.lt)).
Qed.

Lemma leb_lt_or_eq (a b : string) :
  String.leb a b = true <-> string_lt a b \/ a = b.
Proof.
  unfold String.leb, string_lt. split.
  - destruct (String.compare a b) eqn:E; try discriminate; intros _.
    + right. now apply String.compare_eq_iff.
    + now left.
  - intros [H|H]; [now rewrite H|]. subst a.
    destruct (String.compare b b) eqn:E; try reflexivity.
    pose proof (String.compare_antisym b b) as H.
    rewrite E in H. discriminate H.
Qed.

Lemma leb_trans (a b c : string) :
  String.leb a b = true -> String.leb b c = true -> String.leb a c = true.
Proof.
  rewrite !leb_lt_or_eq. intros [H1| ->] [H2| ->]; auto.
  left. eapply string_lt_trans; eassumption.
Qed.

End TextOrder.

(** ** Sorted results in general *)

(** A list sorted by a key without repeated keys is strictly sorted. *)
Lemma sorted_keys_strict {A K : Type} (key : A -> K)
      (le lt : K -> K -> Prop) (l : list A) :
  (forall a b, le a b -> a <> b -> lt a b) ->
  StronglySorted (fun a b => le (key a) (key b)) l ->
  NoDup (map key l) ->
  StronglySorted lt (map key l).
Proof.
  intros Hstrict Hs. induction Hs as [|a l Hs IH Ha]; cbn; intros Hnd.
  - constructor.
  - apply NoDup_cons_iff in Hnd as [Hnotin Hnd].
    constructor; [now apply IH|].
    rewrite Forall_forall in *. intros k Hk.
    apply in_map_iff in Hk as (b & <- & Hb).
    apply Hstrict; [now apply Ha|].
    intros E. apply Hnotin. rewrite E. now apply in_map.
Qed.

Lemma StronglySorted_weaken {A : Type} (R R' : A -> A -> Prop)
      (l : list A) :
  (forall a b, R a b -> R' a b) ->
  StronglySorted R l -> StronglySorted R' l.
Proof.
  intros HR. induction 1 as [|a l Hs IH Ha]; constructor; [exact IH|].
  eapply Forall_impl; [|exact Ha]. intros b. apply HR.
Qed.


Lemma StronglySorted_app_inv {A : Type} (R : A -> A -> Prop)
      (l1 l2 : list A) :
  StronglySorted R (l1 ++ l2) ->
  StronglySorted R l1 /\ forall a b, In a l1 -> In b l2 -> R a b.
Proof.
  induction l1 as [|x l1 IH]; cbn; intros H.
  - split; [constructor | intros a b []].
  - apply StronglySorted_inv in H as [Hs Hx].
    destruct (IH Hs) as [Hs1 Hcross].
    apply Forall_app in Hx as [Hx1 Hx2].
    split; [now constructor|].
    intros a b [<-|Ha] Hb.
    + rewrite Forall_forall in Hx2. now apply Hx2.
    + now apply Hcross.
Qed.

(** What [ORDER BY ... LIMIT n] returns: [n] rows or all of them, in
    order, taken from the input, and no row left out sorts strictly
    before a row taken. *)
Lemma order_limit_spec {A : Type} (leb : A -> A -> bool)
      (n : nat) (l : list A) :
  (forall a b, leb a b = true \/ leb b a = true) ->
  (forall a b c, leb a b = true -> leb b c = true -> leb a c = true) ->
  let res := limit n (order_by leb l) in
  List.length res = Nat.min n (List.length l) /\
  StronglySorted (fun a b => leb a b = true) res /\
  incl res l /\
  forall p q, In p res -> In q l -> ~ In q res -> leb p q = true.
Proof.
  intros Htot Htr res. unfold res, limit.
  pose proof (order_by_sorted leb Htot Htr l) as Hs.
  rewrite <- (firstn_skipn n (order_by leb l)) in Hs.
  apply StronglySorted_app_inv in Hs as [Hs Hcross].
  split; [|split; [|split]].
  - now rewrite length_firstn, order_by_length.
  - exact Hs.
  - intros x Hx. apply (order_by_In leb).
    rewrite <- (firstn_skipn n (order_by leb l)).
    apply in_or_app. now left.
  - intros p q Hp Hq Hnot. apply Hcross; [exact Hp|].
    apply (order_by_In leb) in Hq.
    rewrite <- (firstn_skipn n (order_by leb l)) in Hq.
    apply in_app_or in Hq as [Hq|Hq]; [contradiction | exact Hq].
Qed.

(** ** Sums over groups *)

Lemma sum_int_from (l : list Z) (a : Z) :
  fold_left Z.add l a = (a + Sql.sum_int l)%Z.
Proof.
  unfold Sql.sum_int. revert a.
  induction l as [|x l IH]; intros a; cbn; [lia|].
  rewrite IH, (IH x). lia.
Qed.

Lemma sum_int_cons (x : Z) (l : list Z) :
  Sql.sum_int (x :: l) = (x + Sql.sum_int l)%Z.
Proof. unfold Sql.sum_int at 1. cbn. apply sum_int_from. Qed.

Lemma sum_int_perm (l l' : list Z) :
  Permutation l l' -> Sql.sum_int l = Sql.sum_int l'.
Proof.
  induction 1; rewrite ?sum_int_cons; lia.
Qed.

Section Partition.

Context {R K : Type} (keqb kleb : K -> K -> bool) (key : R -> K).
Hypothesis keqb_eq : forall a b, keqb a b = true <-> a = b.
Variable f : R -> Z.

Definition group_sum (k : K) (t : list R) : Z :=
  Sql.sum_int (map f (filter (fun r => keqb (key r) k) t)).

Lemma indicator_sum (x : K) (v : Z) (ks : list K) :
  NoDup ks -> In x ks ->
  Sql.sum_int (map (fun k => if keqb x k then v else 0%Z) ks) = v.
Proof.
  induction 1 as [|k ks Hk Hnd IH]; [intros []|].
  cbn [map]. rewrite sum_int_cons. intros [->|Hin].
  - rewrite (proj2 (keqb_eq x x) eq_refl).
    assert (E : Sql.sum_int
                  (map (fun k => if keqb x k then v else 0%Z) ks) = 0%Z).
    { clear IH Hnd. induction ks as [|k ks IH]; [reflexivity|].
      cbn [map]. rewrite sum_int_cons.
      destruct (keqb x k) eqn:E.
      - apply keqb_eq in E. subst. exfalso. apply Hk. now left.
      - rewrite IH; [reflexivity|]. intros H. apply Hk. now right. }
    rewrite E. lia.
  - destruct (keqb x k) eqn:E.
    + apply keqb_eq in E. subst. contradiction.
    + rewrite IH by exact Hin. lia.
Qed.

Lemma sum_int_pointwise (g h : K -> Z) (ks : list K) :
  Sql.sum_int (map (fun k => (g k + h k)%Z) ks)
  = (Sql.sum_int (map g ks) + Sql.sum_int (map h ks))%Z.
Proof.
  induction ks as [|k ks IH]; [reflexivity|].
  cbn [map]. rewrite !sum_int_cons, IH. lia.
Qed.

(** Summing a column group by group, over keys that cover the table
    without repetition, is summing it over the table. *)
Lemma group_sums_total (ks : list K) (t : list R) :
  NoDup ks -> (forall r, In r t -> In (key r) ks) ->
  Sql.sum_int (map (fun k => group_sum k t) ks) = Sql.sum_int (map f t).
Proof.
  intros Hnd. induction t as [|r t IH]; intros Hcov.
  - unfold group_sum. cbn. clear Hnd Hcov.
    induction ks as [|k ks IHk]; [reflexivity|].
    cbn [map]. now rewrite sum_int_cons, IHk.
  - rewrite (map_ext _ (fun k => ((if keqb (key r) k then f r else 0)
                                  + group_sum k t)%Z)).
    + rewrite sum_int_pointwise.
      rewrite indicator_sum by (try exact Hnd; apply Hcov; now left).
      rewrite IH by (intros x Hx; apply Hcov; now right).
      cbn [map]. now rewrite sum_int_cons.
    + intros k. unfold group_sum. cbn [filter].
      destruct (keqb (key r) k); cbn [map]; [apply sum_int_cons | lia].
Qed.

Lemma group_by_sums_total (t : list R) :
  Sql.sum_int (map (fun g => Sql.sum_int (map f (snd g)))
                   (group_by keqb kleb key t))
  = Sql.sum_int (map f t).
Proof.
  rewrite <- (group_sums_total (map fst (group_by keqb kleb key t)) t).
  - unfold group_by. rewrite !map_map. reflexivity.
  - apply (group_by_NoDup keqb kleb key keqb_eq).
  - intros r Hr. rewrite group_by_keys. apply order_by_In.
    apply (distinct_keys_In keqb key keqb_eq). eauto.
Qed.

End Partition.

Lemma length_as_sum {A : Type} (l : list A) :
  Z.of_nat (List.length l) = Sql.sum_int (map (fun _ => 1%Z) l).
Proof.
  induction l as [|x l IH]; [reflexivity|].
  cbn [List.length map]. rewrite sum_int_cons. lia.
Qed.

(** ** [discount_impact] *)

Definition is_loss (r : DbRow) : bool := negb (Qle_bool 0 (db_profit r)).

(** Every stored row is counted in exactly one row of [discount_impact]:
    the transaction counts add up to the size of the table and the loss
    counts to the number of rows with negative profit. *)
Theorem discount_impact_counts_every_row (t : list DbRow) :
  Sql.sum_int (map (fun r => Z.of_nat (transaction_count r))
                   (discount_impact t))
  = Z.of_nat (List.length t) /\
  Sql.sum_int (map loss_count (discount_impact t)) = count_if is_loss t.
Proof.
  unfold discount_impact. split.
  - rewrite (sum_int_perm _ _ (Permutation_map _ (order_by_perm _ _))).
    rewrite map_map, length_as_sum.
    rewrite <- (group_by_sums_total String.eqb String.leb
                  discount_bucket_text String.eqb_eq (fun _ => 1%Z) t).
    f_equal. apply map_ext. intros [b rs]. cbn. apply length_as_sum.
  - rewrite (sum_int_perm _ _ (Permutation_map _ (order_by_perm _ _))).
    rewrite map_map. unfold count_if.
    rewrite <- (group_by_sums_total String.eqb String.leb
                  discount_bucket_text String.eqb_eq
                  (fun r => if is_loss r then 1%Z else 0%Z) t).
    f_equal. apply map_ext. intros [b rs]. reflexivity.
Qed.





Example unassigned_bucket_last :
  map d_discount_bucket
      (discount_impact
         (to_sql (clean_frame
                    {| raw_columns := Samples.superstore_header;
                       raw_rows := raw_rows out_of_range
                                   ++ raw_rows Samples.three_rows |})))
  = ["11-20%"; "21-30%"; "No Discount"; "nan"]%string.
Proof. vm_compute. reflexivity. Qed.

(** ** Best and worst products, with the limit *)

(** [top_products] returns 15 groups, or all when there are fewer, in
    descending order of total profit, and no group left out has a larger
    total profit than a listed one; [worst_products] is the same with the
    order turned round. *)
Theorem top_worst_products_cut (t : list DbRow) :
  (List.length (top_products t) = Nat.min 15 (product_count t) /\
   StronglySorted (fun a b => total_profit b <= total_profit a)
                  (top_products t) /\
   incl (top_products t) (product_groups t) /\
   forall p q, In p (top_products t) -> In q (product_groups t) ->
               ~ In q (top_products t) ->
               total_profit q <= total_profit p) /\
  (List.length (worst_products t) = Nat.min 15 (product_count t) /\
   StronglySorted (fun a b => total_profit a <= total_profit b)
                  (worst_products t) /\
   incl (worst_products t) (product_groups t) /\
   forall p q, In p (worst_products t) -> In q (product_groups t) ->
               ~ In q (worst_products t) ->
               total_profit p <= total_profit q).
Proof.
  split.
  - destruct (order_limit_spec profit_desc 15 (product_groups t)
                profit_desc_total profit_desc_trans)
      as (Hlen & Hs & Hincl & Hcut).
    rewrite product_groups_length in Hlen.
    split; [exact Hlen|]. split; [|split; [exact Hincl|]].
    + eapply StronglySorted_weaken; [|exact Hs].
      intros a b H. now apply Qle_bool_iff.
    + intros p q Hp Hq Hn. apply Qle_bool_iff. now apply Hcut.
  - destruct (order_limit_spec profit_asc 15 (product_groups t)
                profit_asc_total profit_asc_trans)
      as (Hlen & Hs & Hincl & Hcut).
    rewrite product_groups_length in Hlen.
    split; [exact Hlen|]. split; [|split; [exact Hincl|]].
    + eapply StronglySorted_weaken; [|exact Hs].
      intros a b H. now apply Qle_bool_iff.
    + intros p q Hp Hq Hn. apply Qle_bool_iff. now apply Hcut.
Qed.

Example thirty_products_cut :
  map total_profit (top_products thirty_products)
  = map (fun n => sql_round (inject_Z (Z.of_nat n)) 2)
        (rev (seq 16 15)) /\
  List.length (worst_products thirty_products) = 15%nat.
Proof. split; vm_compute; reflexivity. Qed.

(** ** Years in ascending order *)

(** The rows of [yoy_growth] come in strictly ascending order of year. *)
Theorem yoy_growth_ascending (t : list DbRow) :
  StronglySorted Z.lt (map yoy_order_year (yoy_growth t)).
Proof.
  apply (sorted_keys_strict yoy_order_year Z.le).
  - intros a b. lia.
  - unfold yoy_growth.
    eapply StronglySorted_weaken;
      [|apply (order_by_sorted year_asc)].
    + intros a b H. now apply Z.leb_le.
    + intros a b. unfold year_asc. rewrite !Z.leb_le. lia.
    + intros a b c. unfold year_asc. rewrite !Z.leb_le. lia.
  - eapply Permutation_NoDup; [symmetry; apply yoy_growth_years|].
    apply yearly_NoDup.
Qed.

(** * The other six queries of [run_analysis_queries] *)

Module Catalog.

Definition db_region (r : DbRow) : string := region (raw (rec r)).
Definition db_segment (r : DbRow) : string := segment (raw (rec r)).
Definition db_ship_mode (r : DbRow) : string := ship_mode (raw (rec r)).
Definition db_state (r : DbRow) : string := state (raw (rec r)).
Definition db_category (r : DbRow) : string := category (raw (rec r)).
Definition db_sub_category (r : DbRow) : string :=
  sub_category (raw (rec r)).
Definition db_customer_id (r : DbRow) : string :=
  customer_id (raw (rec r)).
Definition db_delivery_days (r : DbRow) : Q :=
  inject_Z (delivery_days (rec r)).

(** Keys of two text columns, compared column by column. *)
Definition pair_eqb (a b : string * string) : bool :=
  String.eqb (fst a) (fst b) && String.eqb (snd a) (snd b).

Definition pair_leb (a b : string * string) : bool :=
  match String.compare (fst a) (fst b) with
  | Lt => true
  | Gt => false
  | Eq => String.leb (snd a) (snd b)
  end.

(** *** [monthly_trend] *)

(** [substr(order_date, 1, 7)]. *)
Definition month_of (r : DbRow) : string :=
  String.substring 0 7 (order_date_text r).

Record MonthRow := mkMonth {
  m_month : string;
  m_total_revenue : Q;
  m_total_profit : Q;
  m_total_orders : nat;
  m_unique_customers : nat;
  m_avg_profit_margin : Q
}.

Definition month_row (g : string * list DbRow) : MonthRow :=
  let '(m, rs) := g in
  {| m_month := m;
     m_total_revenue := sql_round (sum_real (map db_sales rs)) 2;
     m_total_profit := sql_round (sum_real (map db_profit rs)) 2;
     m_total_orders := count_distinct (map db_order_id rs);
     m_unique_customers := count_distinct (map db_customer_id rs);
     m_avg_profit_margin := sql_round (avg (map db_margin rs)) 2 |}.

Definition month_asc (a b : MonthRow) : bool :=
  String.leb (m_month a) (m_month b).

(** [GROUP BY month ORDER BY month]. *)
Definition monthly_trend (t : list DbRow) : list MonthRow :=
  order_by month_asc
    (map month_row (group_by String.eqb String.leb month_of t)).

(** *** [regional_performance] *)

Record RegionRow := mkRegion {
  r_region : string;
  r_unique_customers : nat;
  r_total_orders : nat;
  r_total_revenue : Q;
  r_total_profit : Q;
  r_avg_profit_margin : Q;
  r_avg_delivery_days : Q
}.

Definition region_row (g : string * list DbRow) : RegionRow :=
  let '(k, rs) := g in
  {| r_region := k;
     r_unique_customers := count_distinct (map db_customer_id rs);
     r_total_orders := count_distinct (map db_order_id rs);
     r_total_revenue := sql_round (sum_real (map db_sales rs)) 2;
     r_total_profit := sql_round (sum_real (map db_profit rs)) 2;
     r_avg_profit_margin := sql_round (avg (map db_margin rs)) 2;
     r_avg_delivery_days := sql_round (avg (map db_delivery_days rs)) 1 |}.

Definition region_desc (a b : RegionRow) : bool :=
  Qle_bool (r_total_revenue b) (r_total_revenue a).

(** [GROUP BY region ORDER BY total_revenue DESC]. *)
Definition regional_performance (t : list DbRow) : list RegionRow :=
  order_by region_desc
    (map region_row (group_by String.eqb String.leb db_region t)).

(** *** [category_analysis] *)

Record CategoryRow := mkCategory {
  c_category : string;
  c_sub_category : string;
  c_total_revenue : Q;
  c_total_profit : Q;
  c_avg_profit_margin : Q;
  c_total_units : Z;
  c_avg_discount : Q
}.

Definition category_row (g : string * string * list DbRow) : CategoryRow :=
  let '((c, s), rs) := g in
  {| c_category := c;
     c_sub_category := s;
     c_total_revenue := sql_round (sum_real (map db_sales rs)) 2;
     c_total_profit := sql_round (sum_real (map db_profit rs)) 2;
     c_avg_profit_margin := sql_round (avg (map db_margin rs)) 2;
     c_total_units := sum_int (map db_quantity rs);
     c_avg_discount := sql_round (avg (map db_discount rs)) 2 |}.

(** [ORDER BY category, total_revenue DESC]. *)
Definition category_order (a b : CategoryRow) : bool :=
  match String.compare (c_category a) (c_category b) with
  | Lt => true
  | Gt => false
  | Eq => Qle_bool (c_total_revenue b) (c_total_revenue a)
  end.

Definition category_analysis (t : list DbRow) : list CategoryRow :=
  order_by category_order
    (map category_row
         (group_by pair_eqb pair_leb
                   (fun r => (db_category r, db_sub_category r)) t)).

(** *** [segment_analysis] *)

Record SegmentRow := mkSegment {
  s_segment : string;
  s_unique_customers : nat;
  s_total_revenue : Q;
  s_total_profit : Q;
  s_avg_profit_margin : Q;
  s_revenue_per_customer : option Q
}.

(** [ROUND(SUM(sales) * 1.0 / COUNT(DISTINCT customer_id), 2)]. *)
Definition per_customer (rs : list DbRow) : option Q :=
  sql_round_null
    (sql_div (sql_mul (Some (sum_real (map db_sales rs))) (Some 1))
             (Some (inject_Z
                      (Z.of_nat (count_distinct (map db_customer_id rs))))))
    2.

Definition segment_row (g : string * list DbRow) : SegmentRow :=
  let '(k, rs) := g in
  {| s_segment := k;
     s_unique_customers := count_distinct (map db_customer_id rs);
     s_total_revenue := sql_round (sum_real (map db_sales rs)) 2;
     s_total_profit := sql_round (sum_real (map db_profit rs)) 2;
     s_avg_profit_margin := sql_round (avg (map db_margin rs)) 2;
     s_revenue_per_customer := per_customer rs |}.

Definition segment_desc (a b : SegmentRow) : bool :=
  Qle_bool (s_total_revenue b) (s_total_revenue a).

(** [GROUP BY segment ORDER BY total_revenue DESC]. *)
Definition segment_analysis (t : list DbRow) : list SegmentRow :=
  order_by segment_desc
    (map segment_row (group_by String.eqb String.leb db_segment t)).

(** *** [shipping_analysis] *)

Record ShippingRow := mkShipping {
  sh_ship_mode : string;
  sh_order_count : nat;
  sh_avg_delivery_days : Q;
  sh_total_revenue : Q;
  sh_total_profit : Q;
  sh_avg_discount : Q
}.

Definition shipping_row (g : string * list DbRow) : ShippingRow :=
  let '(k, rs) := g in
  {| sh_ship_mode := k;
     sh_order_count := List.length rs;
     sh_avg_delivery_days := sql_round (avg (map db_delivery_days rs)) 1;
     sh_total_revenue := sql_round (sum_real (map db_sales rs)) 2;
     sh_total_profit := sql_round (sum_real (map db_profit rs)) 2;
     sh_avg_discount := sql_round (avg (map db_discount rs)) 3 |}.

Definition count_desc (a b : ShippingRow) : bool :=
  (sh_order_count b <=? sh_order_count a)%nat.

(** [GROUP BY ship_mode ORDER BY order_count DESC]. *)
Definition shipping_analysis (t : list DbRow) : list ShippingRow :=
  order_by count_desc
    (map shipping_row (group_by String.eqb String.leb db_ship_mode t)).

(** *** [top_states] *)

Record StateRow := mkState {
  st_state : string;
  st_region : string;
  st_unique_customers : nat;
  st_total_revenue : Q;
  st_total_profit : Q;
  st_avg_profit_margin : Q
}.

Definition state_row (g : string * string * list DbRow) : StateRow :=
  let '((s, k), rs) := g in
  {| st_state := s;
     st_region := k;
     st_unique_customers := count_distinct (map db_customer_id rs);
     st_total_revenue := sql_round (sum_real (map db_sales rs)) 2;
     st_total_profit := sql_round (sum_real (map db_profit rs)) 2;
     st_avg_profit_margin := sql_round (avg (map db_margin rs)) 2 |}.

Definition state_desc (a b : StateRow) : bool :=
  Qle_bool (st_total_revenue b) (st_total_revenue a).

Definition state_groups (t : list DbRow) : list StateRow :=
  map state_row
      (group_by pair_eqb pair_leb (fun r => (db_state r, db_region r)) t).

(** [GROUP BY state, region ORDER BY total_revenue DESC LIMIT 10]. *)
Definition top_states (t : list DbRow) : list StateRow :=
  limit 10 (order_by state_desc (state_groups t)).

End Catalog.

Example catalog_on_three_rows :
  let t := Samples.stored Samples.three_rows in
  map Catalog.m_month (Catalog.monthly_trend t) = ["2016-11"%string] /\
  map (fun r => (Catalog.c_sub_category r, Catalog.c_total_units r))
      (Catalog.category_analysis t) = [("Chairs"%string, 8%Z)] /\
  map Catalog.sh_order_count (Catalog.shipping_analysis t) = [3%nat] /\
  map Catalog.s_unique_customers (Catalog.segment_analysis t) = [1%nat] /\
  map Catalog.st_state (Catalog.top_states t) = ["Kentucky"%string] /\
  map Catalog.r_region (Catalog.regional_performance t) = ["South"%string].
Proof. vm_compute. repeat split. Qed.

(** ** Groups behind a sorted result *)

Section GroupedQuery.

Context {R K Row : Type} (keqb kleb : K -> K -> bool) (key : R -> K).
Context (mk : K * list R -> Row) (keyof : Row -> K).
Context (leb : Row -> Row -> bool).
Hypothesis keqb_eq : forall a b, keqb a b = true <-> a = b.
Hypothesis keyof_mk : forall g, keyof (mk g) = fst g.

Definition grouped_query (t : list R) : list Row :=
  order_by leb (map mk (group_by keqb kleb key t)).

Lemma grouped_query_keys (t : list R) :
  Permutation (map keyof (grouped_query t))
              (map fst (group_by keqb kleb key t)).
Proof.
  unfold grouped_query.
  rewrite (Permutation_map _ (order_by_perm _ _)), map_map.
  now rewrite (map_ext _ fst) by apply keyof_mk.
Qed.

(** One row for each key present in the table. *)
Lemma grouped_query_one_per_key (t : list R) :
  NoDup (map keyof (grouped_query t)) /\
  forall k, In k (map keyof (grouped_query t)) <->
            exists r, In r t /\ key r = k.
Proof.
  split.
  - eapply Permutation_NoDup; [symmetry; apply grouped_query_keys|].
    apply (group_by_NoDup keqb kleb key keqb_eq).
  - intros k. split.
    + intros H. apply (Permutation_in _ (grouped_query_keys t)) in H.
      rewrite group_by_keys in H. apply order_by_In in H.
      now apply (distinct_keys_In keqb key keqb_eq) in H.
    + intros H.
      apply (Permutation_in _ (Permutation_sym (grouped_query_keys t))).
      rewrite group_by_keys. apply order_by_In.
      now apply (distinct_keys_In keqb key keqb_eq).
Qed.

(** Every row of the result is built from a group that is not empty. *)
Lemma grouped_query_row (t : list R) (row : Row) :
  In row (grouped_query t) ->
  exists rs, rs <> [] /\ row = mk (keyof row, rs) /\
             rs = filter (fun r => keqb (key r) (keyof row)) t.
Proof.
  unfold grouped_query. rewrite order_by_In, in_map_iff.
  intros ([k rs] & <- & Hg). rewrite keyof_mk. cbn [fst].
  apply (group_by_In keqb kleb key keqb_eq) in Hg as [-> (r & Hr & Ek)].
  eexists. split; [|split; reflexivity].
  intros E.
  assert (Hin : In r (filter (fun r0 => keqb (key r0) k) t))
    by (apply filter_In; split; [exact Hr | now apply keqb_eq]).
  rewrite E in Hin. contradiction.
Qed.

End GroupedQuery.



(** ** [segment_analysis]: the ratio has a denominator *)



(** ** [monthly_trend]: one row per month, in order *)

(** [monthly_trend] has exactly one row for each seven-character month
    prefix of an order date in the table, in strictly ascending text
    order. *)
Theorem monthly_trend_ascending (t : list DbRow) :
  StronglySorted TextOrder.string_lt
                 (map Catalog.m_month (Catalog.monthly_trend t)) /\
  forall m, In m (map Catalog.m_month (Catalog.monthly_trend t)) <->
            exists r, In r t /\ Catalog.month_of r = m.
Proof.
  destruct (grouped_query_one_per_key String.eqb String.leb
              Catalog.month_of Catalog.month_row Catalog.m_month
              Catalog.month_asc String.eqb_eq
              (fun g => match g with (k, rs) => eq_refl end) t)
    as [Hnd Hin].
  split; [|exact Hin].
  apply (sorted_keys_strict Catalog.m_month
           (fun a b => String.leb a b = true)).
  - intros a b Hle Hne. apply TextOrder.leb_lt_or_eq in Hle as [H|H];
      [exact H | contradiction].
  - apply (order_by_sorted Catalog.month_asc).
    + intros a b. apply String.leb_total.
    + intros a b c. apply TextOrder.leb_trans.
  - exact Hnd.
Qed.

(** ** [regional_performance]: one row per region, best first *)


(** ** [category_analysis]: two sort keys *)

Lemma compare_refl (a : string) : String.compare a a = Eq.
Proof.
  pose proof (String.compare_antisym a a) as H.
  destruct (String.compare a a); [reflexivity | discriminate | discriminate].
Qed.

Lemma compare_eq (a b : string) : String.compare a b = Eq <-> a = b.
Proof.
  split; [apply String.compare_eq_iff | intros ->; apply compare_refl].
Qed.

(** Category ascending, and total revenue descending inside a category. *)
Definition category_before (a b : Catalog.CategoryRow) : Prop :=
  TextOrder.string_lt (Catalog.c_category a) (Catalog.c_category b) \/
  (Catalog.c_category a = Catalog.c_category b /\
   Catalog.c_total_revenue b <= Catalog.c_total_revenue a).

Lemma category_order_spec (a b : Catalog.CategoryRow) :
  Catalog.category_order a b = true <-> category_before a b.
Proof.
  unfold Catalog.category_order, category_before, TextOrder.string_lt.
  destruct (String.compare (Catalog.c_category a) (Catalog.c_category b))
    eqn:E.
  - apply compare_eq in E. rewrite Qle_bool_iff. split.
    + intros H. right. auto.
    + intros [H|[_ H]]; [discriminate | exact H].
  - split; [now left | reflexivity].
  - split; [discriminate|].
    intros [H|[H _]]; [discriminate|].
    apply compare_eq in H. congruence.
Qed.

Lemma category_before_total (a b : Catalog.CategoryRow) :
  category_before a b \/ category_before b a.
Proof.
  unfold category_before, TextOrder.string_lt.
  pose proof (String.compare_antisym (Catalog.c_category b)
                                     (Catalog.c_category a)) as Hanti.
  destruct (String.compare (Catalog.c_category a) (Catalog.c_category b))
    eqn:E; cbn in Hanti.
  - apply compare_eq in E.
    destruct (Qlt_le_dec (Catalog.c_total_revenue a)
                         (Catalog.c_total_revenue b)) as [H|H].
    + right. right. split; [now symmetry | now apply Qlt_le_weak].
    + left. right. auto.
  - left. now left.
  - right. now left.
Qed.

Lemma category_before_trans (a b c : Catalog.CategoryRow) :
  category_before a b -> category_before b c -> category_before a c.
Proof.
  unfold category_before.
  intros [H1|[E1 H1]] [H2|[E2 H2]].
  - left. eapply TextOrder.string_lt_trans; eassumption.
  - left. now rewrite <- E2.
  - left. now rewrite E1.
  - right. split; [congruence | eapply Qle_trans; eassumption].
Qed.

(** [category_analysis] has one row for each pair of category and
    sub-category present; categories come in ascending text order and,
    inside one category, sub-categories in descending order of total
    revenue. *)
Theorem category_analysis_order (t : list DbRow) :
  StronglySorted category_before (Catalog.category_analysis t) /\
  NoDup (map (fun r => (Catalog.c_category r, Catalog.c_sub_category r))
             (Catalog.category_analysis t)) /\
  forall k, In k (map (fun r => (Catalog.c_category r,
                                 Catalog.c_sub_category r))
                      (Catalog.category_analysis t)) <->
            exists r, In r t /\
                      (Catalog.db_category r, Catalog.db_sub_category r) = k.
Proof.
  split.
  - eapply StronglySorted_weaken;
      [|apply (order_by_sorted Catalog.category_order)].
    + intros a b. apply category_order_spec.
    + intros a b. rewrite !category_order_spec.
      apply category_before_total.
    + intros a b c. rewrite !category_order_spec.
      apply category_before_trans.
  - apply (grouped_query_one_per_key Catalog.pair_eqb Catalog.pair_leb
             (fun r => (Catalog.db_category r, Catalog.db_sub_category r))
             Catalog.category_row
             (fun r => (Catalog.c_category r, Catalog.c_sub_category r))
             Catalog.category_order).
    + intros [a1 a2] [b1 b2]. unfold Catalog.pair_eqb. cbn.
      rewrite andb_true_iff, !String.eqb_eq. split.
      * intros [-> ->]. reflexivity.
      * intros [= -> ->]. auto.
    + intros [[c s] rs]. reflexivity.
Qed.

(** ** [shipping_analysis]: every row counted once *)

(** The order counts of [shipping_analysis] add up to the number of stored
    rows, no count is zero, and the ship modes come in descending order of
    their count. *)
Theorem shipping_analysis_counts (t : list DbRow) :
  Sql.sum_int (map (fun r => Z.of_nat (Catalog.sh_order_count r))
                   (Catalog.shipping_analysis t))
  = Z.of_nat (List.length t) /\
  Forall (fun r => (1 <= Catalog.sh_order_count r)%nat)
         (Catalog.shipping_analysis t) /\
  StronglySorted
    (fun a b => (Catalog.sh_order_count b <= Catalog.sh_order_count a)%nat)
    (Catalog.shipping_analysis t).
Proof.
  split; [|split].
  - unfold Catalog.shipping_analysis.
    rewrite (sum_int_perm _ _ (Permutation_map _ (order_by_perm _ _))).
    rewrite map_map, length_as_sum.
    rewrite <- (group_by_sums_total String.eqb String.leb
                  Catalog.db_ship_mode String.eqb_eq (fun _ => 1%Z) t).
    f_equal. apply map_ext. intros [b rs]. cbn. apply length_as_sum.
  - apply Forall_forall. intros row H.
    apply (grouped_query_row String.eqb String.leb Catalog.db_ship_mode
             Catalog.shipping_row Catalog.sh_ship_mode Catalog.count_desc
             String.eqb_eq) in H; [|intros [k rs]; reflexivity].
    destruct H as (rs & Hne & -> & _). cbn.
    destruct rs; [contradiction | cbn; lia].
  - eapply StronglySorted_weaken;
      [|apply (order_by_sorted Catalog.count_desc)].
    + intros a b H. now apply Nat.leb_le.
    + intros a b. unfold Catalog.count_desc. rewrite !Nat.leb_le. lia.
    + intros a b c. unfold Catalog.count_desc. rewrite !Nat.leb_le. lia.
Qed.

(** ** [top_states]: the ten best *)

Lemma state_desc_total (a b : Catalog.StateRow) :
  Catalog.state_desc a b = true \/ Catalog.state_desc b a = true.
Proof.
  unfold Catalog.state_desc. rewrite !Qle_bool_iff.
  destruct (Qlt_le_dec (Catalog.st_total_revenue a)
                       (Catalog.st_total_revenue b));
    [right; now apply Qlt_le_weak | now left].
Qed.

Lemma state_desc_trans (a b c : Catalog.StateRow) :
  Catalog.state_desc a b = true -> Catalog.state_desc b c = true ->
  Catalog.state_desc a c = true.
Proof.
  unfold Catalog.state_desc. rewrite !Qle_bool_iff.
  intros H1 H2. eapply Qle_trans; eassumption.
Qed.

(** [top_states] returns ten groups of state and region, or all when
    there are fewer, in descending order of total revenue, and no group
    left out has a larger total revenue than a listed one. *)
Theorem top_states_cut (t : list DbRow) :
  List.length (Catalog.top_states t)
  = Nat.min 10 (List.length (Catalog.state_groups t)) /\
  StronglySorted
    (fun a b => Catalog.st_total_revenue b <= Catalog.st_total_revenue a)
    (Catalog.top_states t) /\
  incl (Catalog.top_states t) (Catalog.state_groups t) /\
  forall p q, In p (Catalog.top_states t) ->
              In q (Catalog.state_groups t) ->
              ~ In q (Catalog.top_states t) ->
              Catalog.st_total_revenue q <= Catalog.st_total_revenue p.
Proof.
  destruct (order_limit_spec Catalog.state_desc 10 (Catalog.state_groups t)
              state_desc_total state_desc_trans)
    as (Hlen & Hs & Hincl & Hcut).
  split; [exact Hlen|]. split; [|split; [exact Hincl|]].
  - eapply StronglySorted_weaken; [|exact Hs].
    intros a b H. now apply Qle_bool_iff.
  - intros p q Hp Hq Hn. apply Qle_bool_iff. now apply Hcut.
Qed.

(** * The run as a whole *)












(** * Text sanitising of the PDF report

    [SalesReport._sanitize] of [generate_report.py].  A Python string is a
    sequence of code points; here a list of [N]. *)

Module Report.

Local Open Scope N_scope.

Definition text : Type := list N.

(** The replacement table, in dictionary order. *)
Definition replacements : list (N * text) :=
  [(0x2014, [45]);            (* em dash, hyphen *)
   (0x2013, [45]);            (* en dash, hyphen *)
   (0x2018, [39]);            (* left single quote, apostrophe *)
   (0x2019, [39]);            (* right single quote, apostrophe *)
   (0x201c, [34]);            (* left double quote, straight quote *)
   (0x201d, [34]);            (* right double quote, straight quote *)
   (0x2022, [45]);            (* bullet, hyphen *)
   (0x2026, [46; 46; 46]);    (* ellipsis, three full stops *)
   (0x2192, [45; 62]);        (* right arrow, hyphen and greater-than *)
   (0x2190, [60; 45])].       (* left arrow, less-than and hyphen *)

(** [text.replace(old, new)] for a one-character [old]. *)
Definition replace_cp (old : N) (new : text) (t : text) : text :=
  flat_map (fun c => if c =? old then new else [c]) t.

Definition _sanitize (t : text) : text :=
  fold_left (fun acc p => replace_cp (fst p) (snd p) acc) replacements t.

(** The characters the table replaces. *)
Definition special (c : N) : bool :=
  existsb (N.eqb c) (map fst replacements).

Definition sanitize_cp (c : N) : text := _sanitize [c].

Lemma replace_cp_app (old : N) (new t1 t2 : text) :
  replace_cp old new (t1 ++ t2)
  = replace_cp old new t1 ++ replace_cp old new t2.
Proof. unfold replace_cp. apply flat_map_app. Qed.

Lemma fold_replace_app (ps : list (N * text)) (t1 t2 : text) :
  fold_left (fun acc p => replace_cp (fst p) (snd p) acc) ps (t1 ++ t2)
  = fold_left (fun acc p => replace_cp (fst p) (snd p) acc) ps t1
    ++ fold_left (fun acc p => replace_cp (fst p) (snd p) acc) ps t2.
Proof.
  revert t1 t2. induction ps as [|p ps IH]; intros t1 t2; [reflexivity|].
  cbn [fold_left]. now rewrite replace_cp_app, IH.
Qed.

(** Sanitising works character by character. *)
Lemma sanitize_flat_map (t : text) : _sanitize t = flat_map sanitize_cp t.
Proof.
  induction t as [|c t IH]; [reflexivity|].
  change (c :: t) with ([c] ++ t). unfold _sanitize in *.
  rewrite fold_replace_app, IH. reflexivity.
Qed.

Lemma sanitize_cp_plain (c : N) : special c = false -> sanitize_cp c = [c].
Proof.
  unfold special, sanitize_cp, _sanitize, replacements, replace_cp.
  cbn [map fst existsb fold_left snd flat_map app].
  rewrite !orb_false_iff. intros H. decompose [and] H. clear H.
  repeat match goal with
  | E : (c =? _) = false |- _ => rewrite E; cbn [app flat_map]
  end.
  reflexivity.
Qed.

Lemma sanitize_cp_special (c : N) :
  special c = true -> Forall (fun x => special x = false) (sanitize_cp c).
Proof.
  unfold special at 1. intros H. apply existsb_exists in H as (x & Hx & E).
  apply N.eqb_eq in E. subst x. cbn in Hx.
  repeat (destruct Hx as [<-|Hx]; [vm_compute; repeat constructor|]).
  contradiction.
Qed.

Lemma sanitize_cp_clean (c : N) :
  Forall (fun x => special x = false) (sanitize_cp c).
Proof.
  destruct (special c) eqn:E.
  - now apply sanitize_cp_special.
  - rewrite (sanitize_cp_plain c E). now constructor.
Qed.

Lemma sanitize_unchanged (t : text) :
  Forall (fun c => special c = false) t -> _sanitize t = t.
Proof.
  rewrite sanitize_flat_map. induction 1 as [|c t Hc Ht IH]; [reflexivity|].
  cbn [flat_map]. now rewrite (sanitize_cp_plain c Hc), IH.
Qed.

Lemma sanitize_clean (t : text) :
  Forall (fun c => special c = false) (_sanitize t).
Proof.
  rewrite sanitize_flat_map. induction t as [|c t IH]; [constructor|].
  cbn [flat_map]. apply Forall_app. split; [apply sanitize_cp_clean | exact IH].
Qed.

End Report.

(** After [_sanitize] none of the ten replaced characters is left; a text
    without them comes back as it is; so sanitising twice is sanitising
    once; and the text never gets shorter. *)
Theorem sanitize_removes_specials (t : Report.text) :
  Forall (fun c => Report.special c = false) (Report._sanitize t) /\
  (Forall (fun c => Report.special c = false) t -> Report._sanitize t = t) /\
  Report._sanitize (Report._sanitize t) = Report._sanitize t /\
  (List.length t <= List.length (Report._sanitize t))%nat.
Proof.
  split; [apply Report.sanitize_clean|].
  split; [apply Report.sanitize_unchanged|].
  split; [apply Report.sanitize_unchanged, Report.sanitize_clean|].
  rewrite Report.sanitize_flat_map.
  induction t as [|c t IH]; [apply le_n|].
  cbn [flat_map]. rewrite length_app. cbn [List.length].
  assert (1 <= List.length (Report.sanitize_cp c))%nat; [|lia].
  destruct (Report.special c) eqn:E.
  - unfold Report.special in E.
    apply existsb_exists in E as (x & Hx & E).
    apply N.eqb_eq in E. subst x. cbn in Hx.
    repeat (destruct Hx as [<-|Hx]; [vm_compute; lia|]).
    contradiction.
  - rewrite (Report.sanitize_cp_plain c E). cbn. lia.
Qed.

Lemma sanitize_removes_specials_witness :
  Report._sanitize [72; 105]%N = [72; 105]%N.
Proof.
  refine (proj1 (proj2 (sanitize_removes_specials [72; 105]%N)) _).
  repeat constructor.
Defined.

Example sanitize_arrow_and_dash :
  Report._sanitize [65; 0x2192; 66; 0x2014; 0x2026]%N
  = [65; 45; 62; 66; 45; 46; 46; 46]%N.
Proof. reflexivity. Qed.

(** * The quality report of [validate_data] *)


Lemma count_true_zero {A : Type} (p : A -> bool) (l : list A) :
  count_true p l = 0%nat <-> Forall (fun x => p x = false) l.
Proof.
  unfold count_true. induction l as [|x l IH]; cbn.
  - split; [constructor | reflexivity].
  - destruct (p x) eqn:E; cbn.
    + split; [discriminate|]. intros H. apply Forall_inv in H. congruence.
    + rewrite IH. split; [now constructor | apply Forall_inv_tail].
Qed.




(** ** The date range *)

Definition day_le (a b : date) : Prop :=
  (days_from_civil a <= days_from_civil b)%Z.

Lemma fold_min_spec (ds : list date) (d : date) :
  let m := fold_left (fun m x => if date_leb x m then x else m) ds d in
  In m (d :: ds) /\ Forall (day_le m) (d :: ds).
Proof.
  revert d. induction ds as [|x ds IH]; intros d; cbn [fold_left].
  - split; [now left|]. repeat constructor. unfold day_le. lia.
  - destruct (IH (if date_leb x d then x else d)) as [Hin Hall].
    apply Forall_cons_iff in Hall as [Hm Hall].
    unfold date_leb in *. split.
    + destruct Hin as [E|Hin]; [|now right; right].
      rewrite <- E. destruct (Z.leb_spec (days_from_civil x)
                                         (days_from_civil d));
        [right; now left | now left].
    + unfold day_le in *.
      destruct (Z.leb_spec (days_from_civil x) (days_from_civil d));
        repeat constructor; try assumption; lia.
Qed.

Lemma fold_max_spec (ds : list date) (d : date) :
  let m := fold_left (fun m x => if date_leb m x then x else m) ds d in
  In m (d :: ds) /\ Forall (fun x => day_le x m) (d :: ds).
Proof.
  revert d. induction ds as [|x ds IH]; intros d; cbn [fold_left].
  - split; [now left|]. repeat constructor. unfold day_le. lia.
  - destruct (IH (if date_leb d x then x else d)) as [Hin Hall].
    apply Forall_cons_iff in Hall as [Hm Hall].
    unfold date_leb in *. split.
    + destruct Hin as [E|Hin]; [|now right; right].
      rewrite <- E. destruct (Z.leb_spec (days_from_civil d)
                                         (days_from_civil x));
        [right; now left | now left].
    + unfold day_le in *.
      destruct (Z.leb_spec (days_from_civil d) (days_from_civil x));
        repeat constructor; try assumption; lia.
Qed.

(** For a table with rows the reported date range starts and ends at
    order dates of the table, and every order date lies between them. *)
Theorem quality_report_date_range (df : CleanFrame) :
  rows df <> [] ->
  let dates := map (fun c => order_date (raw c)) (rows df) in
  exists lo hi,
    date_range (quality_report df) = Some (lo, hi) /\
    In lo dates /\ In hi dates /\
    Forall (fun d => day_le lo d /\ day_le d hi) dates.
Proof.
  intros Hne dates. cbn [date_range quality_report]. fold dates.
  destruct dates as [|d ds] eqn:E.
  - apply map_eq_nil in E. contradiction.
  - cbn [min_max_date].
    destruct (fold_min_spec ds d) as [Hmin Hlo].
    destruct (fold_max_spec ds d) as [Hmax Hhi].
    eexists. eexists. split; [reflexivity|].
    split; [exact Hmin|]. split; [exact Hmax|].
    rewrite Forall_forall in *. intros x Hx. auto.
Qed.

Lemma quality_report_date_range_witness :
  exists lo hi,
    date_range (quality_report
                  (clean_frame
                     {| raw_columns := Samples.superstore_header;
                        raw_rows :=
                          [Samples.sample_row 1 "Chair" (mkDate 2016 5 9)
                                              1 1 1 0;
                           Samples.sample_row 2 "Table" (mkDate 2014 3 1)
                                              1 1 1 0] |}))
    = Some (lo, hi) /\
    lo = mkDate 2014 3 1 /\ hi = mkDate 2016 5 9.
Proof.
  destruct (quality_report_date_range
              (clean_frame
                 {| raw_columns := Samples.superstore_header;
                    raw_rows :=
                      [Samples.sample_row 1 "Chair" (mkDate 2016 5 9)
                                          1 1 1 0;
                       Samples.sample_row 2 "Table" (mkDate 2014 3 1)
                                          1 1 1 0] |}))
    as (lo & hi & H & _).
  - vm_compute. discriminate.
  - exists lo, hi. split; [exact H|].
    vm_compute in H. injection H as <- <-. split; reflexivity.
Defined.

(** ** Missing values *)

(** On a freshly cleaned frame whose raw cells are all present, the report
    lists no column with missing values exactly when every discount lies
    in (-0.01, 1.0]; otherwise it lists the bucket column alone, with the
    number of rows whose discount lies outside. *)
Theorem quality_report_missing_values (df : RawFrame) :
  let cleaned := clean_frame df in
  let outside (c : CleanRow) :=
    Qle_bool (discount (raw c)) (- (1 # 100))
    || negb (Qle_bool (discount (raw c)) 1) in
  (null_columns (quality_report cleaned) = [] <->
   Forall (fun c => - (1 # 100) < discount (raw c) /\ discount (raw c) <= 1)
          (rows cleaned)) /\
  (null_columns (quality_report cleaned) <> [] ->
   null_columns (quality_report cleaned)
   = [("discount_bucket"%string, count_true outside (rows cleaned))]).
Proof.
  intros cleaned outside.
  assert (Hout : forall c, In c (rows cleaned) ->
                  match discount_bucket c with
                  | None => true
                  | Some _ => false
                  end = outside c).
  { intros c Hc. apply clean_frame_rows in Hc as [E _].
    rewrite E at 1. cbn [discount_bucket derive]. unfold outside.
    destruct (cut_discount (discount (raw c))) as [l|] eqn:Ec.
    - symmetry. apply not_true_iff_false. intros H.
      apply orb_true_iff in H.
      rewrite negb_true_iff, <- not_true_iff_false, !Qle_bool_iff in H.
      assert (cut_discount (discount (raw c)) = None).
      { apply cut_discount_none. destruct H as [H|H];
          [now left | right; now apply Qnot_le_lt]. }
      congruence.
    - symmetry. apply cut_discount_none in Ec as [H|H]; apply orb_true_iff.
      + left. now apply Qle_bool_iff.
      + right. apply negb_true_iff, not_true_iff_false.
        rewrite Qle_bool_iff. lra. }
  assert (Ecount : count_true (fun c => match discount_bucket c with
                                        | None => true
                                        | Some _ => false
                                        end) (rows cleaned)
                   = count_true outside (rows cleaned)).
  { unfold count_true. f_equal. apply filter_ext_in. exact Hout. }
  cbn [null_columns quality_report]. unfold null_counts.
  fold cleaned. rewrite Ecount.
  destruct (count_true outside (rows cleaned)) as [|n] eqn:En; cbn.
  - split; [|congruence]. split; [|reflexivity]. intros _.
    apply count_true_zero in En. rewrite Forall_forall in *.
    intros c Hc. specialize (En c Hc). unfold outside in En.
    apply orb_false_iff in En as [E1 E2].
    apply negb_false_iff, Qle_bool_iff in E2.
    apply not_true_iff_false in E1. rewrite Qle_bool_iff in E1.
    split; [now apply Qnot_le_lt | exact E2].
  - split; [|reflexivity]. split; [discriminate|].
    intros Hall. exfalso.
    assert (count_true outside (rows cleaned) = 0%nat); [|lia].
    apply count_true_zero. rewrite Forall_forall in *.
    intros c Hc. destruct (Hall c Hc) as [Hlo Hhi]. unfold outside.
    apply orb_false_iff. split.
    + apply not_true_iff_false. rewrite Qle_bool_iff. lra.
    + apply negb_false_iff, Qle_bool_iff, Hhi.
Qed.

Lemma quality_report_missing_values_witness :
  null_columns (quality_report (clean_frame out_of_range))
  = [("discount_bucket"%string, 2%nat)].
Proof.
  refine (proj2 (quality_report_missing_values out_of_range) _).
  vm_compute. discriminate.
Defined.

(** ** Table cells of the report *)

(** The text [add_table] puts in a body cell: [_sanitize(str(val)[:25])],
    for the printed value [val]. *)
Definition cell_text (val : Report.text) : Report.text :=
  Report._sanitize (firstn 25 val).

Lemma sanitize_cp_length (c : N) :
  (1 <= List.length (Report.sanitize_cp c) <= 3)%nat.
Proof.
  destruct (Report.special c) eqn:E.
  - unfold Report.special in E.
    apply existsb_exists in E as (x & Hx & E).
    apply N.eqb_eq in E. subst x. cbn in Hx.
    repeat (destruct Hx as [<-|Hx]; [vm_compute; lia|]).
    contradiction.
  - rewrite (Report.sanitize_cp_plain c E). cbn. lia.
Qed.

Lemma sanitize_length (t : Report.text) :
  (List.length t <= List.length (Report._sanitize t)
   <= 3 * List.length t)%nat.
Proof.
  rewrite Report.sanitize_flat_map.
  induction t as [|c t IH]; [cbn; lia|].
  cbn [flat_map]. rewrite length_app. cbn [List.length].
  pose proof (sanitize_cp_length c). lia.
Qed.

(** A body cell is cut to 25 characters before the replacements, not
    after: its text has at least as many characters as the cut value and
    at most 75, and it does exceed 25 when the cut value holds ellipses
    or arrows. *)
Theorem cell_text_length (val : Report.text) :
  (Nat.min 25 (List.length val) <= List.length (cell_text val) <= 75)%nat /\
  (List.length (cell_text (repeat 0x2026%N 25)) = 75)%nat.
Proof.
  split; [|reflexivity].
  unfold cell_text. pose proof (sanitize_length (firstn 25 val)) as H.
  rewrite length_firstn in H. lia.
Qed.

(** ** Rounded totals *)

Lemma round_half_away_close (q : Q) :
  Qabs (inject_Z (round_half_away q) - q) <= 1 # 2.
Proof.
  unfold round_half_away. destruct (Qle_bool 0 q).
  - pose proof (Qfloor_le (q + (1 # 2))) as Hlo.
    pose proof (Qlt_floor (q + (1 # 2))) as Hhi.
    rewrite inject_Z_plus in Hhi. change (inject_Z 1) with 1 in Hhi.
    apply Qabs_Qle_condition. split; lra.
  - pose proof (Qfloor_le (- q + (1 # 2))) as Hlo.
    pose proof (Qlt_floor (- q + (1 # 2))) as Hhi.
    rewrite inject_Z_plus in Hhi. change (inject_Z 1) with 1 in Hhi.
    rewrite inject_Z_opp.
    apply Qabs_Qle_condition. split; lra.
Qed.

Lemma sql_round2_close (q : Q) : Qabs (sql_round q 2 - q) <= 1 # 200.
Proof.
  unfold sql_round. change (pow10 2) with 100.
  pose proof (round_half_away_close (q * 100)) as H.
  apply Qabs_Qle_condition in H as [H1 H2].
  unfold Qdiv. change (/ 100) with (1 # 100).
  generalize dependent (inject_Z (round_half_away (q * 100))).
  intros x H1 H2. apply Qabs_Qle_condition. split; lra.
Qed.

(** The revenue and profit a row of [yoy_growth] reports lie within half
    a cent of the exact sums over the rows of its year. *)
Theorem yoy_growth_totals_rounded (t : list DbRow) (row : YoyRow) :
  In row (yoy_growth t) ->
  let rs := rows_of_year t (yoy_order_year row) in
  Qabs (revenue row - sum_real (map db_sales rs)) <= 1 # 200 /\
  Qabs (yoy_profit row - sum_real (map db_profit rs)) <= 1 # 200.
Proof.
  intros H rs. destruct (yoy_growth_In t row H) as (_ & Er & Ep & _).
  rewrite Er, Ep. split; apply sql_round2_close.
Qed.

Lemma yoy_growth_totals_rounded_witness :
  let row := nth 0 (yoy_growth three_years) (mkYoy 0 0 0 0 None None) in
  let rs := rows_of_year three_years (yoy_order_year row) in
  Qabs (revenue row - sum_real (map db_sales rs)) <= 1 # 200 /\
  Qabs (yoy_profit row - sum_real (map db_profit rs)) <= 1 # 200.
Proof.
  intros row.
  apply (yoy_growth_totals_rounded three_years row).
  vm_compute. left. reflexivity.
Defined.

(** ** Instances on sample tables *)


Lemma top_worst_products_cut_witness :
  let best := nth 0 (top_products thirty_products)
                  (mkProduct "" "" "" 0 0 0 0) in
  let least := nth 0 (worst_products thirty_products)
                   (mkProduct "" "" "" 0 0 0 0) in
  total_profit least <= total_profit best.
Proof.
  intros best least.
  apply (proj2 (proj2 (proj2 (proj1
           (top_worst_products_cut thirty_products))))).
  - vm_compute. left. reflexivity.
  - apply (proj1 (proj2 (proj2 (proj2
             (top_worst_products_cut thirty_products))))).
    vm_compute. left. reflexivity.
  - intros H. vm_compute in H.
    repeat (destruct H as [H|H]; [discriminate H|]). exact H.
Defined.

(** Twelve states with total revenue 1 to 12. *)
Definition numbered_state (n : nat) : RawRow :=
  mkRaw (Z.of_nat n) "CA-1" Samples.nov8 Samples.nov8 "Same Day"
        "CG-12520" "Claire Gute" "Consumer" "United States" "Henderson"
        (String (ascii_of_nat (64 + n)) EmptyString) None "South" "P-1"
        "Furniture" "Chairs" "Chair" (inject_Z (Z.of_nat n)) 1 0 1.

Definition twelve_states : list DbRow :=
  Samples.stored
    {| raw_columns := Samples.superstore_header;
       raw_rows := map numbered_state (seq 1 12) |}.

Lemma top_states_cut_witness :
  let best := nth 0 (Catalog.top_states twelve_states)
                  (Catalog.mkState "" "" 0 0 0 0) in
  let least := nth 0 (Catalog.state_groups twelve_states)
                   (Catalog.mkState "" "" 0 0 0 0) in
  Catalog.st_total_revenue least <= Catalog.st_total_revenue best.
Proof.
  intros best least.
  apply (proj2 (proj2 (proj2 (top_states_cut twelve_states)))).
  - vm_compute. left. reflexivity.
  - vm_compute. left. reflexivity.
  - intros H. vm_compute in H.
    repeat (destruct H as [H|H]; [discriminate H|]). exact H.
Defined.

Example twelve_states_top :
  map Catalog.st_state (Catalog.top_states twelve_states)
  = ["L"; "K"; "J"; "I"; "H"; "G"; "F"; "E"; "D"; "C"]%string.
Proof. vm_compute. reflexivity. Qed.
